(** * HavagBot: a shallow embedding of [havagbot.py]

    The bot answers the commands [/start], [/home] and [/work] with the
    next tram connection.  This development embeds the functions of
    [havagbot.py] as executable Rocq definitions and proves the properties
    of its configuration loader, access gate, connection selector and
    formatter.

    Conventions of the embedding:
    - Python [int] is [Z]; [str] is [string], one [ascii] for each
      character, read as its code point: the text covered is the text
      whose code points are below 256; [list] is [list]; [None] is
      [None].
    - A call that may raise returns a [result]; the exception classes that
      occur are the constructors of [exn].
    - The bot, the log file, the wall clock and the remote service are
      explicit: effects on the chat and on the log are threaded through a
      [world], the clock and the service are read from an [environment].
    - The libraries that the program drives ([configparser], [argparse],
      the [Updater]) are taken by what the program observes of them: the
      answers they give are inputs, their internals are not modelled. *)

From Stdlib Require Import ZArith String Ascii List Lia Bool.
From Stdlib Require Import Decimal DecimalString DecimalZ.
From stdpp Require Import base option list gmap strings.

Local Open Scope string_scope.
Local Open Scope Z_scope.
Local Open Scope list_scope.

(** ** Exceptions and fallible computations *)

Inductive exn : Type :=
| KeyError (key : string)
| ValueError
| TypeError
| IndexError
| RemoteError
| ConfigparserError (class : string)
| SystemExit.

Inductive result (A : Type) : Type :=
| Ok (a : A)
| Raise (e : exn).
Arguments Ok {A} a.
Arguments Raise {A} e.

Definition rbind {A B} (r : result A) (k : A -> result B) : result B :=
  match r with
  | Ok a => k a
  | Raise e => Raise e
  end.

Notation "'let!' x ':=' r 'in' k" := (rbind r (fun x => k))
  (at level 10, x pattern, r at level 100, k at level 200).

Definition is_ok {A} (r : result A) : bool :=
  match r with Ok _ => true | Raise _ => false end.

Definition rmap {A B} (f : A -> B) (r : result A) : result B :=
  match r with
  | Ok a => Ok (f a)
  | Raise e => Raise e
  end.

(** ** The pieces of the Python runtime that the program calls *)

Module Py.

(** [c.isspace()]: TAB, LF, VT, FF, CR, the separators FS, GS, RS, US,
    the space, NEL (133) and the no-break space (160). *)
Definition isspace (c : ascii) : bool :=
  let n := nat_of_ascii c in
  ((9 <=? n) && (n <=? 13) || (28 <=? n) && (n <=? 32)
   || (n =? 133) || (n =? 160))%nat.

(** The blanks that [int(...)] skips around a literal: TAB, LF, VT, FF,
    CR, the space, NEL and the no-break space (the separators FS..US are
    not skipped). *)
Definition isblank (c : ascii) : bool :=
  let n := nat_of_ascii c in
  ((9 <=? n) && (n <=? 13) || (n =? 32) || (n =? 133) || (n =? 160))%nat.

Section Strip.

Variable sp : ascii -> bool.

Fixpoint lstrip_with (s : string) : string :=
  match s with
  | String c r => if sp c then lstrip_with r else s
  | EmptyString => EmptyString
  end.

Fixpoint rstrip_with (s : string) : string :=
  match s with
  | String c r =>
      match rstrip_with r with
      | EmptyString => if sp c then EmptyString else String c EmptyString
      | r' => String c r'
      end
  | EmptyString => EmptyString
  end.

Definition strip_with (s : string) : string := rstrip_with (lstrip_with s).
End Strip.

(** [s.strip()] *)
Definition strip : string -> string := strip_with isspace.

(** [s.split(sep)] for a one-character separator: always at least one
    piece, empty pieces are kept. *)
Fixpoint split (sep : ascii) (s : string) : list string :=
  match s with
  | EmptyString => [EmptyString]
  | String c r =>
      if Ascii.eqb c sep then EmptyString :: split sep r
      else match split sep r with
           | w :: ws => String c w :: ws
           | [] => [String c EmptyString]
           end
  end.

(** [sep.join(l)] *)
Fixpoint join (sep : string) (l : list string) : string :=
  match l with
  | [] => EmptyString
  | [x] => x
  | x :: xs => x +:+ sep +:+ join sep xs
  end.

(** [x in s] for a one-character [x] *)
Fixpoint contains (sep : ascii) (s : string) : bool :=
  match s with
  | EmptyString => false
  | String c r => Ascii.eqb c sep || contains sep r
  end.

Definition digit_of (c : ascii) : option (uint -> uint) :=
  match c with
  | "0"%char => Some D0 | "1"%char => Some D1 | "2"%char => Some D2
  | "3"%char => Some D3 | "4"%char => Some D4 | "5"%char => Some D5
  | "6"%char => Some D6 | "7"%char => Some D7 | "8"%char => Some D8
  | "9"%char => Some D9
  | _ => None
  end.

Definition isdigit (c : ascii) : bool :=
  match digit_of c with Some _ => true | None => false end.

(** The digits of an integer literal, most significant first.  A single
    underscore may separate two digits; [need_digit] holds at the start
    and after an underscore, where only a digit may follow. *)
Fixpoint digits (need_digit : bool) (s : string) : option uint :=
  match s with
  | EmptyString => if need_digit then None else Some Nil
  | String c r =>
      match digit_of c with
      | Some d => d <$> digits false r
      | None =>
          if Ascii.eqb c "_" && negb need_digit then digits true r else None
      end
  end.

(** [int(s)]: blanks around the literal are skipped, one sign is
    accepted; [None] stands for the [ValueError] of a malformed literal. *)
Definition int (s : string) : option Z :=
  let s := strip_with isblank s in
  match s with
  | String "-" r => (fun u => - Z.of_uint u) <$> digits true r
  | String "+" r => Z.of_uint <$> digits true r
  | _ => Z.of_uint <$> digits true s
  end.

(** [str(n)] for an integer *)
Definition str (n : Z) : string := NilZero.string_of_int (Z.to_int n).

Fixpoint count_digits (s : string) : nat :=
  match s with
  | EmptyString => 0
  | String c r => ((if isdigit c then 1 else 0) + count_digits r)%nat
  end.

(** The guard of string-to-integer conversion: with a limit set
    ([max_str_digits] is 0 for none, and for an interpreter that has no
    such guard), a literal of more than 640 digits and more than the
    limit is refused. *)
Definition exceeds_limit (max_str_digits : nat) (s : string) : bool :=
  ((640 <? count_digits s) && (0 <? max_str_digits)
   && (max_str_digits <? count_digits s))%nat.

(** [int(s)] under the interpreter's limit; [None] is [ValueError]. *)
Definition int_limited (max_str_digits : nat) (s : string) : option Z :=
  if exceeds_limit max_str_digits s then None else int s.

(** [[f(x) for x in l]] where [f] may raise [ValueError]: the first
    failure, from the left, ends the comprehension. *)
Fixpoint comprehension {A B} (f : A -> option B) (l : list A)
  : result (list B) :=
  match l with
  | [] => Ok []
  | x :: xs =>
      match f x with
      | None => Raise ValueError
      | Some y => let! ys := comprehension f xs in Ok (y :: ys)
      end
  end.

End Py.

(** ** Configuration loader *)

(** The dictionary returned by [read_config]. *)
Module Config.
Record config : Type := Config {
  token : string;
  home : string;
  direction_home : list string;
  workplace : string;
  direction_workplace : list string;
  ids : list Z
}.
End Config.

Abbreviation config := Config.config.

(** What the program observes of a [ConfigParser] that has read a file:
    whether a section is there, whether a section has an option (the
    parser's own matching of names and its defaults included), and what
    retrieving the option gives: the value, blanks around it removed
    and references expanded, or the exception of the expansion. *)
Record ConfigParser : Type := {
  cp_has_section : string -> bool;
  cp_has_option : string -> string -> bool;
  cp_get : string -> string -> result string
}.

(** What the loader takes from outside: the limit of the interpreter on
    the digits of an integer literal, and what [cp.read(filename)] makes
    of a file name: the parser after reading (a file that cannot be
    opened is skipped and leaves it empty), or the exception raised for
    a file that cannot be decoded or parsed. *)
Record runtime : Type := {
  int_max_str_digits : nat;
  cp_read : string -> result ConfigParser
}.

(** [cp[key]]: the section, stood for by its name *)
Definition section_getitem (cp : ConfigParser) (key : string)
  : result string :=
  if String.eqb key "DEFAULT" || cp_has_section cp key then Ok key
  else Raise (KeyError key).

(** [section[key]] *)
Definition option_getitem (cp : ConfigParser) (section key : string)
  : result string :=
  if cp_has_option cp section key then cp_get cp section key
  else Raise (KeyError key).

Definition read_config (rt : runtime) (filename : string) : result config :=
  let! cp := cp_read rt filename in
  let! authentication := section_getitem cp "AUTHENTICATION" in
  let! token := option_getitem cp authentication "token" in
  let! authentication' := section_getitem cp "AUTHENTICATION" in
  let! allowed_ids := option_getitem cp authentication' "allowed_ids" in
  let! ids := Py.comprehension (Py.int_limited (int_max_str_digits rt))
                (Py.split "," allowed_ids) in
  let! locations := section_getitem cp "LOCATIONS" in
  let! workplace := option_getitem cp locations "workplace" in
  let! direction_workplace :=
    option_getitem cp locations "direction_workplace" in
  let! home := option_getitem cp locations "home" in
  let! direction_home := option_getitem cp locations "direction_home" in
  Ok {| Config.token := token;
        Config.home := home;
        Config.direction_home := Py.split "," direction_home;
        Config.workplace := workplace;
        Config.direction_workplace := Py.split "," direction_workplace;
        Config.ids := ids |}.

(** ** Dates, times and durations ([datetime]) *)

Module Datetime.

Record datetime : Type := DT {
  year : Z; month : Z; day : Z;
  hour : Z; minute : Z; second : Z; microsecond : Z
}.

Record timedelta : Type := TD {
  days : Z; seconds : Z; microseconds : Z
}.

(** [divmod(a, b)] on integers, for a positive [b] *)
Definition divmod (a b : Z) : Z * Z := (a / b, a mod b).

Definition is_leap (y : Z) : bool :=
  (y mod 4 =? 0) && (negb (y mod 100 =? 0) || (y mod 400 =? 0)).

Definition days_before_year (y : Z) : Z :=
  let y := y - 1 in
  y * 365 + y / 4 - y / 100 + y / 400.

Definition DAYS_IN_MONTH : list Z :=
  [31; 28; 31; 30; 31; 30; 31; 31; 30; 31; 30; 31].

Definition days_in_month (y m : Z) : Z :=
  if (m =? 2) && is_leap y then 29
  else nth (Z.to_nat (m - 1)) DAYS_IN_MONTH 0.

Definition days_before_month (y m : Z) : Z :=
  fold_right Z.add 0 (firstn (Z.to_nat (m - 1)) DAYS_IN_MONTH)
  + (if (2 <? m) && is_leap y then 1 else 0).

Definition ymd2ord (y m d : Z) : Z :=
  days_before_year y + days_before_month y m + d.

Definition toordinal (t : datetime) : Z :=
  ymd2ord (year t) (month t) (day t).

(** The constructor normalises: [0 <= seconds < 86400] and
    [0 <= microseconds < 1000000]; only [days] carries the sign. *)
Definition timedelta_new (d s us : Z) : timedelta :=
  let '(carry_s, us) := divmod us 1000000 in
  let '(carry_d, s) := divmod (s + carry_s) (24 * 3600) in
  {| days := d + carry_d; seconds := s; microseconds := us |}.

(** [self - other] on two naive datetimes *)
Definition sub (self other : datetime) : timedelta :=
  let days1 := toordinal self in
  let days2 := toordinal other in
  let secs1 := second self + minute self * 60 + hour self * 3600 in
  let secs2 := second other + minute other * 60 + hour other * 3600 in
  timedelta_new (days1 - days2) (secs1 - secs2)
                (microsecond self - microsecond other).

(** The constructor [datetime(y, m, d, hh, mm, ss, us)] checks its fields. *)
Definition new (y m d hh mm ss us : Z) : result datetime :=
  if (1 <=? y) && (y <=? 9999) && (1 <=? m) && (m <=? 12)
     && (1 <=? d) && (d <=? days_in_month y m)
     && (0 <=? hh) && (hh <=? 23) && (0 <=? mm) && (mm <=? 59)
     && (0 <=? ss) && (ss <=? 59) && (0 <=? us) && (us <=? 999999)
  then Ok (DT y m d hh mm ss us)
  else Raise ValueError.

(** *** [strptime]

    The format is compiled to a regular expression: every directive is a
    group of alternatives tried in order, every other character stands
    for itself.  The match is anchored at the start and backtracks. *)

Inductive cclass : Type :=
| CDigit
| CRange (lo hi : ascii)
| CLit (c : ascii).

Definition cmatch (k : cclass) (c : ascii) : bool :=
  match k with
  | CDigit => Py.isdigit c
  | CRange lo hi =>
      ((nat_of_ascii lo <=? nat_of_ascii c)
       && (nat_of_ascii c <=? nat_of_ascii hi))%nat
  | CLit l => Ascii.eqb c l
  end.

Inductive item : Type :=
| Group (alternatives : list (list cclass))
| Literal (c : ascii).

Fixpoint match_alt (alt : list cclass) (s : string)
  : option (string * string) :=
  match alt with
  | [] => Some (EmptyString, s)
  | k :: alt' =>
      match s with
      | String c r =>
          if cmatch k c then
            match match_alt alt' r with
            | Some (txt, rest) => Some (String c txt, rest)
            | None => None
            end
          else None
      | EmptyString => None
      end
  end.

Fixpoint match_items (p : list item) (s : string)
  : option (list string * string) :=
  match p with
  | [] => Some ([], s)
  | Literal l :: p' =>
      match s with
      | String c r => if Ascii.eqb c l then match_items p' r else None
      | EmptyString => None
      end
  | Group alts :: p' =>
      (fix try (alts : list (list cclass)) :=
         match alts with
         | [] => None
         | a :: more =>
             match match_alt a s with
             | Some (txt, r) =>
                 match match_items p' r with
                 | Some (groups, rest) => Some (txt :: groups, rest)
                 | None => try more
                 end
             | None => try more
             end
         end) alts
  end.

Definition r (lo hi : ascii) : cclass := CRange lo hi.

(** [%Y]: [\d\d\d\d] *)
Definition dir_Y : item := Group [[CDigit; CDigit; CDigit; CDigit]].
(** [%m]: [1[0-2]|0[1-9]|[1-9]] *)
Definition dir_m : item :=
  Group [[CLit "1"; r "0" "2"]; [CLit "0"; r "1" "9"]; [r "1" "9"]].
(** [%d]: [3[0-1]|[1-2]\d|0[1-9]|[1-9]| [1-9]] *)
Definition dir_d : item :=
  Group [[CLit "3"; r "0" "1"]; [r "1" "2"; CDigit]; [CLit "0"; r "1" "9"];
         [r "1" "9"]; [CLit " "; r "1" "9"]].
(** [%H]: [2[0-3]|[0-1]\d|\d] *)
Definition dir_H : item :=
  Group [[CLit "2"; r "0" "3"]; [r "0" "1"; CDigit]; [CDigit]].
(** [%M]: [[0-5]\d|\d] *)
Definition dir_M : item := Group [[r "0" "5"; CDigit]; [CDigit]].
(** [%S]: [6[0-1]|[0-5]\d|\d] *)
Definition dir_S : item :=
  Group [[CLit "6"; r "0" "1"]; [r "0" "5"; CDigit]; [CDigit]].

(** The regular expression of ["%Y.%m.%d.%H:%M:%S"] *)
Definition format_regex : list item :=
  [dir_Y; Literal "."; dir_m; Literal "."; dir_d; Literal ".";
   dir_H; Literal ":"; dir_M; Literal ":"; dir_S].

(** [datetime.strptime(s, "%Y.%m.%d.%H:%M:%S")]: no match, unconverted
    data after the match, and fields that are no date or time all raise
    [ValueError]. *)
Definition strptime (s : string) : result datetime :=
  match match_items format_regex s with
  | Some ([gY; gm; gd; gH; gM; gS], EmptyString) =>
      match Py.int gY, Py.int gm, Py.int gd,
            Py.int gH, Py.int gM, Py.int gS with
      | Some y, Some m, Some d, Some hh, Some mm, Some ss =>
          new y m d hh mm ss 0
      | _, _, _, _, _, _ => Raise ValueError
      end
  | _ => Raise ValueError
  end.

(** ["%02d" % n] for [0 <= n] *)
Definition two_digits (n : Z) : string :=
  if n <? 10 then "0" +:+ Py.str n else Py.str n.

(** [t.strftime("%H:%M")] *)
Definition strftime (t : datetime) : string :=
  two_digits (hour t) +:+ ":" +:+ two_digits (minute t).

End Datetime.

(** ** Values, departures and connections *)

(** The values that the [delta] entry of a connection takes: the pair
    made by [divmod], and the string or the integer that the formatter
    stores over it. *)
Inductive value : Type :=
| VPair (a b : Z)
| VStr (s : string)
| VInt (n : Z).

(** One record of [getDeparturesForStop]: line, destination, scheduled
    time, and further fields that the program skips. *)
Record departure : Type := Departure {
  dep_tram : string;
  dep_destination : string;
  dep_time : string;
  dep_rest : list string
}.

(** The dictionary built for a retained departure. *)
Record connection : Type := Connection {
  tram : string;
  destination : string;
  time : string;
  delta : value
}.

(** What a request reads from outside: the wall clock and the answer of
    the remote service for a stop. *)
Record environment : Type := Environment {
  now : Datetime.datetime;
  getDeparturesForStop : string -> result (list departure)
}.

(** ** The chat and the log *)

Inductive level : Type := DEBUG | INFO | WARNING.

Definition levelno (l : level) : Z :=
  match l with DEBUG => 10 | INFO => 20 | WARNING => 30 end.

Record world : Type := World {
  sent : list (Z * string);
  log : list (level * string)
}.

Record chat : Type := Chat {
  first_name : option string;
  last_name : option string
}.

Record message : Type := Message {
  chat_id : Z;
  msg_chat : chat
}.

Record update : Type := Update {
  upd_message : message
}.

(** Handlers act on the world and may raise. *)
Definition M (A : Type) : Type := world -> result A * world.

Definition ret {A} (a : A) : M A := fun w => (Ok a, w).

Definition raise {A} (e : exn) : M A := fun w => (Raise e, w).

Definition bind {A B} (m : M A) (k : A -> M B) : M B :=
  fun w =>
    match m w with
    | (Ok a, w') => k a w'
    | (Raise e, w') => (Raise e, w')
    end.

Definition lift {A} (r : result A) : M A := fun w => (r, w).

Notation "'do!' x ':=' m 'in' k" := (bind m (fun x => k))
  (at level 10, x pattern, m at level 100, k at level 200).

(** [bot.sendMessage(chat_id=..., text=...)] *)
Definition sendMessage (chat_id : Z) (text : string) : M unit :=
  fun w => (Ok tt, {| sent := sent w ++ [(chat_id, text)]; log := log w |}).

(** The module logger, configured with [level=logging.INFO]: records
    below that level are not written. *)
Definition logger_log (l : level) (msg : string) : M unit :=
  fun w =>
    if levelno INFO <=? levelno l
    then (Ok tt, {| sent := sent w; log := log w ++ [(l, msg)] |})
    else (Ok tt, w).

Definition logger_debug : string -> M unit := logger_log DEBUG.
Definition logger_warning : string -> M unit := logger_log WARNING.

(** ["{}".format(x)] for a name that may be [None] *)
Definition format_name (x : option string) : string :=
  match x with Some s => s | None => "None" end.

(** ** The bot *)

Module HavagBot.

Record self : Type := Self {
  home_address : string;
  direction_home : list string;
  workplace : string;
  direction_workplace : list string;
  allowed_ids : option (list Z)
}.

(** [__init__]: the arguments are stored as they come; [allowed_ids]
    defaults to [None].  The proxy of the remote service, made here for a
    fixed address, is the [getDeparturesForStop] of the environment. *)
Definition init (home_address : string) (direction_home : list string)
    (workplace : string) (direction_workplace : list string)
    (allowed_ids : option (list Z)) : self :=
  {| home_address := home_address;
     direction_home := direction_home;
     workplace := workplace;
     direction_workplace := direction_workplace;
     allowed_ids := allowed_ids |}.

(** Truth value of [self.allowed_ids]: [None] and the empty list are
    false. *)
Definition truthy (l : option (list Z)) : bool :=
  match l with
  | Some (_ :: _) => true
  | _ => false
  end.

(** [requesting_id in self.allowed_ids], evaluated only for a list *)
Definition id_in (requesting_id : Z) (l : option (list Z)) : bool :=
  match l with
  | Some l => existsb (Z.eqb requesting_id) l
  | None => false
  end.

(** The decorator [check_id]. *)
Definition check_id (func : self -> update -> M unit)
  : self -> update -> M unit :=
  fun self update =>
    let requesting_id := chat_id (upd_message update) in
    if truthy (allowed_ids self) && id_in requesting_id (allowed_ids self)
    then
      do! _ := logger_debug "Found ID in ID_LIST" in
      func self update
    else
      let chat := msg_chat (upd_message update) in
      logger_warning
        ("User " +:+ format_name (first_name chat) +:+ " "
         +:+ format_name (last_name chat) +:+ " with id "
         +:+ Py.str requesting_id +:+ " not in id list").

(** [divmod((time - now).seconds, 60)] *)
Definition delta_of (now time : Datetime.datetime) : Z * Z :=
  Datetime.divmod (Datetime.seconds (Datetime.sub time now)) 60.

(** [destination in direction] for a list of names *)
Definition in_direction (destination : string) (direction : list string)
  : bool :=
  existsb (String.eqb destination) direction.

(** The loop of [get_connections] over the records of the service;
    [connections] is the list built so far. *)
Fixpoint get_connections_loop (now : Datetime.datetime)
    (direction : list string) (departures : list departure)
    (connections : list connection) : result (list connection) :=
  match departures with
  | [] => Ok connections
  | Departure tram destination time rest :: departures' =>
      let! time := Datetime.strptime time in
      let delta := delta_of now time in
      let timestr := Datetime.strftime time in
      if in_direction destination direction
      then get_connections_loop now direction departures'
             (connections ++ [{| tram := tram; destination := destination;
                                 time := timestr;
                                 delta := VPair (fst delta) (snd delta) |}])
      else get_connections_loop now direction departures' connections
  end.

Definition get_connections (env : environment) (start : string)
    (direction : list string) : result (list connection) :=
  let now := now env in
  let! departures := getDeparturesForStop env start in
  get_connections_loop now direction departures [].

(** [a < b] on two values: pairs compare lexicographically, strings and
    integers among themselves, anything else is a [TypeError]. *)
Definition value_lt (a b : value) : result bool :=
  match a, b with
  | VPair a1 a2, VPair b1 b2 => Ok ((a1 <? b1) || (a1 =? b1) && (a2 <? b2))
  | VStr s, VStr t => Ok (String.ltb s t)
  | VInt m, VInt n => Ok (m <? n)
  | _, _ => Raise TypeError
  end.

(** [min(..., key=lambda x: x["delta"])] after the first item: a later
    item replaces the best one only when its key is strictly smaller. *)
Fixpoint min_loop (best : connection) (items : list connection)
  : result connection :=
  match items with
  | [] => Ok best
  | x :: items' =>
      let! smaller := value_lt (delta x) (delta best) in
      min_loop (if smaller then x else best) items'
  end.

Definition get_next_connection (connections : list connection)
  : result connection :=
  match connections with
  | [] => Raise ValueError
  | x :: items => min_loop x items
  end.

(** [v[0]] *)
Definition first_item (v : value) : result value :=
  match v with
  | VPair a _ => Ok (VInt a)
  | VStr (String c _) => Ok (VStr (String c EmptyString))
  | VStr EmptyString => Raise IndexError
  | VInt _ => Raise TypeError
  end.

(** [v < n] for an integer [n] *)
Definition lt_int (v : value) (n : Z) : result bool :=
  match v with
  | VInt m => Ok (m <? n)
  | _ => Raise TypeError
  end.

(** ["{:}".format(v)] *)
Definition format_value (v : value) : string :=
  match v with
  | VPair a b => "(" +:+ Py.str a +:+ ", " +:+ Py.str b +:+ ")"
  | VStr s => s
  | VInt n => Py.str n
  end.

Definition set_delta (c : connection) (v : value) : connection :=
  {| tram := tram c; destination := destination c; time := time c;
     delta := v |}.

(** [return_connection_str].  The dictionary is passed by reference and
    assigned to: the second component is the dictionary after the call. *)
Definition return_connection_str (conn : connection)
  : result string * connection :=
  match first_item (delta conn) with
  | Raise e => (Raise e, conn)
  | Ok first =>
      match lt_int first 1 with
      | Raise e => (Raise e, conn)
      | Ok below =>
          let conn :=
            if below then set_delta conn (VStr "< 1")
            else set_delta conn first in
          (Ok (tram conn +:+ " -> " +:+ destination conn
               +:+ " @ " +:+ time conn
               +:+ " (" +:+ format_value (delta conn) +:+ " Min.)"),
           conn)
      end
  end.

Definition start_body (self : self) (update : update) : M unit :=
  sendMessage (chat_id (upd_message update)) "Hello".

Definition start : self -> update -> M unit := check_id start_body.

(** The common shape of [home] and [work]: only the stop and the
    destination list differ. *)
Definition reply_next (env : environment) (stop : string)
    (direction : list string) (update : update) : M unit :=
  do! connections := lift (get_connections env stop direction) in
  do! msg :=
    match get_next_connection connections with
    | Raise ValueError => ret "Keine Verbindung gefunden."
    | Raise e => raise e
    | Ok next_connection => lift (fst (return_connection_str next_connection))
    end in
  sendMessage (chat_id (upd_message update)) msg.

Definition home_body (env : environment) (self : self) (update : update)
  : M unit :=
  reply_next env (workplace self) (direction_home self) update.

Definition home (env : environment) : self -> update -> M unit :=
  check_id (home_body env).

Definition work_body (env : environment) (self : self) (update : update)
  : M unit :=
  reply_next env (home_address self) (direction_workplace self) update.

Definition work (env : environment) : self -> update -> M unit :=
  check_id (work_body env).

End HavagBot.

Import HavagBot.

(** ** Reference notions used in the statements *)

(** The instant of a datetime, in microseconds since the start of the
    proleptic calendar. *)
Definition instant (t : Datetime.datetime) : Z :=
  ((Datetime.toordinal t * 86400
    + Datetime.hour t * 3600 + Datetime.minute t * 60 + Datetime.second t)
   * 1000000) + Datetime.microsecond t.

(** Lexicographic order on (minutes, seconds). *)
Definition lex_le (a b : Z * Z) : Prop :=
  fst a < fst b \/ (fst a = fst b /\ snd a <= snd b).

(** The dictionary built for departure [d] whose time parsed to [t]. *)
Definition conn_of (n : Datetime.datetime) (d : departure)
    (t : Datetime.datetime) : connection :=
  {| tram := dep_tram d;
     destination := dep_destination d;
     time := Datetime.strftime t;
     delta := VPair (fst (delta_of n t)) (snd (delta_of n t)) |}.

(** The scheduled time of [d] is in the format of the service. *)
Definition parses (d : departure) : Prop :=
  is_ok (Datetime.strptime (dep_time d)) = true.

(** [c] was built from a departure of [deps] bound for [direction]. *)
Definition built_from (n : Datetime.datetime) (direction : list string)
    (deps : list departure) (c : connection) : Prop :=
  exists d t,
    In d deps /\ Datetime.strptime (dep_time d) = Ok t
    /\ in_direction (dep_destination d) direction = true
    /\ c = conn_of n d t.

(** The [delta] entry of [c] is still the pair made by [divmod]. *)
Definition pair_delta (c : connection) : Prop :=
  exists a b, delta c = VPair a b.

(** [c]'s key is not above [x]'s. *)
Definition key_le (c x : connection) : Prop :=
  match delta c, delta x with
  | VPair a b, VPair a' b' => lex_le (a, b) (a', b')
  | _, _ => False
  end.

(** The scenario of the test plan: two departures from "Hauptbahnhof"
    at 10:00:00 on 2024-01-01, and a bot that allows the identity 111. *)
Definition scenario_departures : list departure :=
  [Departure "3" "Schkeuditz" "2024.01.01.10:05:00" [];
   Departure "7" "Leipzig" "2024.01.01.10:02:00" []].

Definition scenario_env : environment :=
  {| now := Datetime.DT 2024 1 1 10 0 0 0;
     getDeparturesForStop := fun stop =>
       if String.eqb stop "Hauptbahnhof" then Ok scenario_departures
       else Raise RemoteError |}.

Definition scenario_bot (direction : list string) : self :=
  {| home_address := "Hauptbahnhof";
     direction_home := direction;
     workplace := "Hauptbahnhof";
     direction_workplace := direction;
     allowed_ids := Some [111] |}.

Definition scenario_update (requesting_id : Z) : update :=
  Update (Message requesting_id (Chat (Some "Ada") None)).

Definition empty_world : world := {| sent := []; log := [] |}.

(** The requesting identity is on a non-empty allow-list. *)
Definition allowed (s : self) (u : update) : Prop :=
  exists l, allowed_ids s = Some l /\ l <> []
            /\ In (chat_id (upd_message u)) l.

(** The text of the warning for a dropped request. *)
Definition warning_text (u : update) : string :=
  "User " +:+ format_name (first_name (msg_chat (upd_message u))) +:+ " "
  +:+ format_name (last_name (msg_chat (upd_message u))) +:+ " with id "
  +:+ Py.str (chat_id (upd_message u)) +:+ " not in id list".

(** The world after a dropped request. *)
Definition dropped (u : update) (w : world) : world :=
  {| sent := sent w; log := log w ++ [(WARNING, warning_text u)] |}.

(** The reading of the delta of a past departure as an absolute
    difference: minutes = floor(|scheduled - now| in seconds / 60). *)
Definition past_delta_is_absolute : Prop :=
  forall n t,
    instant t < instant n ->
    fst (delta_of n t) = Z.abs ((instant t - instant n) / 1000000) / 60.

(** The shape [HH:MM]: two digits, a colon, two digits. *)
Definition is_HHMM (s : string) : bool :=
  match s with
  | String a (String b (String ":" (String c (String d EmptyString)))) =>
      Py.isdigit a && Py.isdigit b && Py.isdigit c && Py.isdigit d
  | _ => false
  end.

Definition is_two_digits (s : string) : bool :=
  match s with
  | String a (String b EmptyString) => Py.isdigit a && Py.isdigit b
  | _ => false
  end.

Fixpoint all_digits (s : string) : bool :=
  match s with
  | EmptyString => true
  | String c r => Py.isdigit c && all_digits r
  end.

Fixpoint free_of (sp : ascii -> bool) (s : string) : bool :=
  match s with
  | EmptyString => true
  | String c r => negb (sp c) && free_of sp r
  end.

(** The parser after reading a plain file: one that holds the given
    sections (none of them DEFAULT) and, in them, the given options,
    named in lower case, with the given values, which have no blank at
    either end, no line break and no percent sign, so that retrieving
    gives them as written.  Used for such files only. *)
Definition parser_of (m : gmap string (gmap string string)) : ConfigParser :=
  {| cp_has_section := fun section =>
       match m !! section with Some _ => true | None => false end;
     cp_has_option := fun section key =>
       match m !! section with
       | Some options =>
           match options !! key with Some _ => true | None => false end
       | None => false
       end;
     cp_get := fun section key =>
       match m !! section with
       | Some options =>
           match options !! key with
           | Some v => Ok v
           | None => Raise (ConfigparserError "NoOptionError")
           end
       | None => Raise (ConfigparserError "NoSectionError")
       end |}.

(** A run in which every file name leads to the parser of [m], under
    the default limit of 4300 digits. *)
Definition runtime_of (m : gmap string (gmap string string)) : runtime :=
  {| int_max_str_digits := 4300;
     cp_read := fun _ => Ok (parser_of m) |}.

(** A configuration file with the given [allowed_ids] value. *)
Definition config_with_ids (id_list : string)
  : gmap string (gmap string string) :=
  {[ "AUTHENTICATION" := {[ "token" := "123:abc"; "allowed_ids" := id_list ]};
     "LOCATIONS" := {[ "workplace" := "Hauptbahnhof";
                       "direction_workplace" := "A, B,A";
                       "home" := "Markt";
                       "direction_home" := "Schkeuditz" ]} ]}.

(** The reading of the destination lists as sets of trimmed names. *)
Definition destinations_are_trimmed_sets : Prop :=
  forall rt filename cfg,
    read_config rt filename = Ok cfg ->
    (Forall (fun x => Py.strip x = x) (Config.direction_home cfg)
     /\ List.NoDup (Config.direction_home cfg))
    /\ (Forall (fun x => Py.strip x = x) (Config.direction_workplace cfg)
        /\ List.NoDup (Config.direction_workplace cfg)).

Definition comma_free (x : string) : Prop := Py.contains "," x = false.

(** The parser has the two sections and the six options, and retrieving
    them gives the values of [c] as they are written in a file: the
    entries of each list joined by commas, the ids in decimal. *)
Definition hands_back (cp : ConfigParser) (c : config) : Prop :=
  cp_has_section cp "AUTHENTICATION" = true
  /\ cp_has_section cp "LOCATIONS" = true
  /\ cp_has_option cp "AUTHENTICATION" "token" = true
  /\ cp_has_option cp "AUTHENTICATION" "allowed_ids" = true
  /\ cp_has_option cp "LOCATIONS" "workplace" = true
  /\ cp_has_option cp "LOCATIONS" "direction_workplace" = true
  /\ cp_has_option cp "LOCATIONS" "home" = true
  /\ cp_has_option cp "LOCATIONS" "direction_home" = true
  /\ cp_get cp "AUTHENTICATION" "token" = Ok (Config.token c)
  /\ cp_get cp "AUTHENTICATION" "allowed_ids"
     = Ok (Py.join "," (map Py.str (Config.ids c)))
  /\ cp_get cp "LOCATIONS" "workplace" = Ok (Config.workplace c)
  /\ cp_get cp "LOCATIONS" "direction_workplace"
     = Ok (Py.join "," (Config.direction_workplace c))
  /\ cp_get cp "LOCATIONS" "home" = Ok (Config.home c)
  /\ cp_get cp "LOCATIONS" "direction_home"
     = Ok (Py.join "," (Config.direction_home c)).

(** The sections and options of a file written for the values of [c],
    to be read with [parser_of] when these values are plain. *)
Definition file_of (c : config) : gmap string (gmap string string) :=
  {[ "AUTHENTICATION" :=
       {[ "token" := Config.token c;
          "allowed_ids" := Py.join "," (map Py.str (Config.ids c)) ]};
     "LOCATIONS" :=
       {[ "workplace" := Config.workplace c;
          "direction_workplace" := Py.join "," (Config.direction_workplace c);
          "home" := Config.home c;
          "direction_home" := Py.join "," (Config.direction_home c) ]} ]}.

Definition no_destination : config :=
  {| Config.token := "123:abc";
     Config.home := "Markt";
     Config.direction_home := [];
     Config.workplace := "Hauptbahnhof";
     Config.direction_workplace := ["Leipzig"];
     Config.ids := [111] |}.

Definition known_values : config :=
  {| Config.token := "123:abc";
     Config.home := "Markt";
     Config.direction_home := ["Schkeuditz"; "Bad Duerrenberg"];
     Config.workplace := "Hauptbahnhof";
     Config.direction_workplace := ["Leipzig"];
     Config.ids := [111; -5; 0] |}.

(** A run in which reading the file fails: it has no section header. *)
Definition headerless_runtime : runtime :=
  {| int_max_str_digits := 4300;
     cp_read := fun _ =>
       Raise (ConfigparserError "MissingSectionHeaderError") |}.

(** The parser of a file whose token has a stray percent sign: the value
    is there, retrieving it fails. *)
Definition stray_percent_runtime : runtime :=
  {| int_max_str_digits := 4300;
     cp_read := fun _ =>
       Ok {| cp_has_section := cp_has_section
                                 (parser_of (config_with_ids "111"));
             cp_has_option := cp_has_option
                                (parser_of (config_with_ids "111"));
             cp_get := fun section key =>
               if String.eqb key "token"
               then Raise (ConfigparserError "InterpolationSyntaxError")
               else cp_get (parser_of (config_with_ids "111"))
                           section key |} |}.

(** The reading of the loader's failures as failures that name a
    missing section or key, or come from an entry of the allow-list that
    is no integer. *)
Definition loader_names_every_failure : Prop :=
  forall rt filename e,
    read_config rt filename = Raise e ->
    (exists k, e = KeyError k)
    \/ (exists cp v entry,
          cp_read rt filename = Ok cp
          /\ cp_get cp "AUTHENTICATION" "allowed_ids" = Ok v
          /\ In entry (Py.split "," v)
          /\ Py.int_limited (int_max_str_digits rt) entry = None).

(** The sections and options that the loader asks for. *)
Definition read_options : list (string * string) :=
  [("AUTHENTICATION", "token"); ("AUTHENTICATION", "allowed_ids");
   ("LOCATIONS", "workplace"); ("LOCATIONS", "direction_workplace");
   ("LOCATIONS", "home"); ("LOCATIONS", "direction_home")].

(** Two parsers answer alike about these sections and options. *)
Definition same_answers (cp1 cp2 : ConfigParser) : Prop :=
  (forall section,
     section = "AUTHENTICATION" \/ section = "LOCATIONS" ->
     cp_has_section cp1 section = cp_has_section cp2 section)
  /\ (forall section key,
        In (section, key) read_options ->
        cp_has_option cp1 section key = cp_has_option cp2 section key
        /\ cp_get cp1 section key = cp_get cp2 section key).

(** The parser has both sections and every option but [allowed_ids],
    and retrieving them succeeds. *)
Definition other_options_answered (cp : ConfigParser) : Prop :=
  cp_has_section cp "AUTHENTICATION" = true
  /\ cp_has_section cp "LOCATIONS" = true
  /\ (cp_has_option cp "AUTHENTICATION" "token" = true
      /\ is_ok (cp_get cp "AUTHENTICATION" "token") = true)
  /\ (cp_has_option cp "LOCATIONS" "workplace" = true
      /\ is_ok (cp_get cp "LOCATIONS" "workplace") = true)
  /\ (cp_has_option cp "LOCATIONS" "direction_workplace" = true
      /\ is_ok (cp_get cp "LOCATIONS" "direction_workplace") = true)
  /\ (cp_has_option cp "LOCATIONS" "home" = true
      /\ is_ok (cp_get cp "LOCATIONS" "home") = true)
  /\ (cp_has_option cp "LOCATIONS" "direction_home" = true
      /\ is_ok (cp_get cp "LOCATIONS" "direction_home") = true).

(** The file of [config_with_ids "111"] with one more section and one
    more option in LOCATIONS. *)
Definition config_with_more : gmap string (gmap string string) :=
  {[ "AUTHENTICATION" := {[ "token" := "123:abc"; "allowed_ids" := "111" ]};
     "LOCATIONS" := {[ "workplace" := "Hauptbahnhof";
                       "direction_workplace" := "A, B,A";
                       "home" := "Markt";
                       "direction_home" := "Schkeuditz";
                       "lunch" := "Markt" ]};
     "LOGGING" := {[ "level" := "debug" ]} ]}.

(** The delta as the difference of the instants would give it: the
    whole seconds from now to the scheduled time, floor-divided by 60,
    with the remainder. *)
Definition second_difference_delta (n t : Datetime.datetime) : Z * Z :=
  let s := (instant t - instant n) / 1000000 in
  (s / 60, s mod 60).

(** The delta as the code has it: the same, of the whole seconds taken
    modulo one day. *)
Definition wrapped_delta (n t : Datetime.datetime) : Z * Z :=
  let s := ((instant t - instant n) / 1000000) mod 86400 in
  (s / 60, s mod 60).

(** The reading of the selection as the least difference of instants. *)
Definition selects_least_second_difference : Prop :=
  forall env start direction deps c,
    getDeparturesForStop env start = Ok deps ->
    (let! cs := get_connections env start direction in
     get_next_connection cs) = Ok c ->
    exists d t,
      In d deps /\ In (dep_destination d) direction
      /\ Datetime.strptime (dep_time d) = Ok t
      /\ tram c = dep_tram d
      /\ delta c = VPair (fst (second_difference_delta (now env) t))
                         (snd (second_difference_delta (now env) t))
      /\ forall d' t',
           In d' deps -> In (dep_destination d') direction ->
           Datetime.strptime (dep_time d') = Ok t' ->
           lex_le (second_difference_delta (now env) t)
                  (second_difference_delta (now env) t').

(** At 10:00:00, one departure today at 10:02 and one tomorrow at
    10:01. *)
Definition two_days_env : environment :=
  {| now := Datetime.DT 2024 1 1 10 0 0 0;
     getDeparturesForStop := fun _ =>
       Ok [Departure "4" "Schkeuditz" "2024.01.01.10:02:00" [];
           Departure "11" "Schkeuditz" "2024.01.02.10:01:00" []] |}.

(** ** Start-up *)

(** The bot that [main] builds from the loaded configuration. *)
Definition main_bot (c : config) : self :=
  HavagBot.init (Config.home c) (Config.direction_home c)
                (Config.workplace c) (Config.direction_workplace c)
                (Some (Config.ids c)).





(** ** Further reference notions *)

(** Strict lexicographic order on (minutes, seconds), and its test. *)
Definition lex_lt (a b : Z * Z) : Prop :=
  fst a < fst b \/ (fst a = fst b /\ snd a < snd b).

Definition lex_ltb (a b : Z * Z) : bool :=
  (fst a <? fst b) || (fst a =? fst b) && (snd a <? snd b).

(** The pair under [delta], for a connection that was not formatted. *)
Definition key (c : connection) : Z * Z :=
  match delta c with
  | VPair a b => (a, b)
  | _ => (0, 0)
  end.

(** The connections of the parsed departures bound for [direction], in
    the order of the departures. *)
Definition retained (n : Datetime.datetime) (direction : list string)
    (parsed : list (departure * Datetime.datetime)) : list connection :=
  map (fun p => conn_of n (fst p) (snd p))
      (List.filter (fun p => in_direction (dep_destination (fst p)) direction)
                   parsed).

(** The line that the formatter makes for departure [d] at time [t]. *)
Definition reply_text (n : Datetime.datetime) (d : departure)
    (t : Datetime.datetime) : string :=
  dep_tram d +:+ " -> " +:+ dep_destination d +:+ " @ "
  +:+ Datetime.strftime t +:+ " ("
  +:+ (if fst (delta_of n t) <? 1 then "< 1"
       else Py.str (fst (delta_of n t)))
  +:+ " Min.)".

(** The world after one more message to the chat of [u]. *)
Definition replied (u : update) (text : string) (w : world) : world :=
  {| sent := sent w ++ [(chat_id (upd_message u), text)]; log := log w |}.

(** All characters of [s] are skipped by [int]. *)
Fixpoint all_blank (s : string) : bool :=
  match s with
  | EmptyString => true
  | String c r => Py.isblank c && all_blank r
  end.

(** Departures of which the second has a timestamp that is no date. *)
Definition broken_departures : list departure :=
  [Departure "3" "Schkeuditz" "2024.01.01.10:05:00" [];
   Departure "7" "Leipzig" "2024.02.30.10:02:00" []].

Definition broken_env : environment :=
  {| now := Datetime.DT 2024 1 1 10 0 0 0;
     getDeparturesForStop := fun stop => Ok broken_departures |}.


(** Two records of the service that differ in the skipped fields only. *)
Definition same_leading_fields (d d' : departure) : Prop :=
  dep_tram d = dep_tram d' /\ dep_destination d = dep_destination d'
  /\ dep_time d = dep_time d'.

(** ** The day-normalised difference *)

Lemma sub_seconds (t n : Datetime.datetime) :
  Datetime.seconds (Datetime.sub t n)
  = ((instant t - instant n) / 1000000) mod 86400.
Proof.
  unfold Datetime.sub, Datetime.timedelta_new, Datetime.divmod, instant.
  cbn [Datetime.seconds].
  set (D := Datetime.toordinal t - Datetime.toordinal n).
  set (S1 := Datetime.second t + Datetime.minute t * 60
             + Datetime.hour t * 3600).
  set (S2 := Datetime.second n + Datetime.minute n * 60
             + Datetime.hour n * 3600).
  set (U := Datetime.microsecond t - Datetime.microsecond n).
  replace ((Datetime.toordinal t * 86400 + Datetime.hour t * 3600
            + Datetime.minute t * 60 + Datetime.second t) * 1000000
           + Datetime.microsecond t
           - ((Datetime.toordinal n * 86400 + Datetime.hour n * 3600
               + Datetime.minute n * 60 + Datetime.second n) * 1000000
              + Datetime.microsecond n))
    with ((D * 86400 + (S1 - S2)) * 1000000 + U) by (unfold D, S1, S2, U; lia).
  rewrite Z.div_add_l by lia.
  replace (D * 86400 + (S1 - S2) + U / 1000000)
    with ((S1 - S2 + U / 1000000) + D * 86400) by lia.
  rewrite Z.mod_add by lia.
  reflexivity.
Qed.

Lemma sub_seconds_range (t n : Datetime.datetime) :
  0 <= Datetime.seconds (Datetime.sub t n) < 86400.
Proof. rewrite sub_seconds. apply Z.mod_pos_bound. lia. Qed.

Lemma delta_of_eq (n t : Datetime.datetime) :
  delta_of n t
  = (Datetime.seconds (Datetime.sub t n) / 60,
     Datetime.seconds (Datetime.sub t n) mod 60).
Proof. reflexivity. Qed.

Lemma delta_of_range (n t : Datetime.datetime) :
  0 <= fst (delta_of n t) <= 1439 /\ 0 <= snd (delta_of n t) <= 59.
Proof.
  rewrite delta_of_eq. cbn [fst snd].
  pose proof (sub_seconds_range t n) as Hs.
  pose proof (Z.mod_pos_bound (Datetime.seconds (Datetime.sub t n)) 60).
  split; [|lia].
  split.
  - apply Z.div_pos; lia.
  - assert (Datetime.seconds (Datetime.sub t n) / 60 < 1440); [|lia].
    apply Z.div_lt_upper_bound; lia.
Qed.

(** Within one day ahead, the seconds component is the whole-second
    difference itself. *)
Lemma sub_seconds_same_day (t n : Datetime.datetime) :
  0 <= instant t - instant n < 86400 * 1000000 ->
  Datetime.seconds (Datetime.sub t n) = (instant t - instant n) / 1000000.
Proof.
  intros H. rewrite sub_seconds. apply Z.mod_small. split.
  - apply Z.div_pos; lia.
  - apply Z.div_lt_upper_bound; lia.
Qed.

(** Within one day back, it is a day minus the elapsed time. *)
Lemma sub_seconds_past_day (t n : Datetime.datetime) :
  - (86400 * 1000000) <= instant t - instant n < 0 ->
  Datetime.seconds (Datetime.sub t n)
  = 86400 + (instant t - instant n) / 1000000.
Proof.
  intros H. rewrite sub_seconds.
  set (q := (instant t - instant n) / 1000000).
  assert (-86400 <= q < 0) as Hq.
  { unfold q. split.
    - apply Z.div_le_lower_bound; lia.
    - apply Z.div_lt_upper_bound; lia. }
  transitivity ((q + 1 * 86400) mod 86400).
  - symmetry. apply Z.mod_add. lia.
  - rewrite Z.mod_small; lia.
Qed.

(** ** The loop of [get_connections] *)

Lemma in_direction_In (x : string) (l : list string) :
  in_direction x l = true <-> In x l.
Proof.
  unfold in_direction. rewrite List.existsb_exists. split.
  - intros [y [Hy He]]. apply String.eqb_eq in He. subst. exact Hy.
  - intros H. exists x. split; [exact H | apply String.eqb_refl].
Qed.

Lemma parses_inv (d : departure) :
  parses d -> exists t, Datetime.strptime (dep_time d) = Ok t.
Proof.
  unfold parses. destruct (Datetime.strptime (dep_time d)) as [t|e].
  - eauto.
  - discriminate.
Qed.

Lemma built_from_cons n direction d deps c :
  built_from n direction deps c -> built_from n direction (d :: deps) c.
Proof.
  intros (d' & t & Hin & Hp & Hm & ->).
  exists d', t. repeat split; auto. right. exact Hin.
Qed.

Lemma loop_ok n direction deps :
  Forall parses deps ->
  forall acc, exists cs,
    get_connections_loop n direction deps acc = Ok (acc ++ cs)
    /\ forall c, In c cs <-> built_from n direction deps c.
Proof.
  induction 1 as [|d deps Hd _ IH]; intros acc.
  - exists []. split.
    + cbn. now rewrite app_nil_r.
    + intros c. split; [intros [] | intros (d & t & [] & _)].
  - destruct (parses_inv d Hd) as [t Ht].
    destruct d as [tr de ti re]. cbn in Ht. cbn [get_connections_loop].
    rewrite Ht. cbn [rbind].
    destruct (in_direction de direction) eqn:Hm.
    + destruct (IH (acc ++ [conn_of n (Departure tr de ti re) t]))
        as (cs & Hcs & Hspec).
      exists (conn_of n (Departure tr de ti re) t :: cs). split.
      * change (get_connections_loop n direction deps
                  (acc ++ [conn_of n (Departure tr de ti re) t])
                = Ok (acc ++ conn_of n (Departure tr de ti re) t :: cs)).
        rewrite Hcs, <- app_assoc. reflexivity.
      * intros c. split.
        -- intros [<- | Hin].
           ++ exists (Departure tr de ti re), t. cbn. auto.
           ++ apply built_from_cons. now apply Hspec.
        -- intros (d' & t' & [<- | Hin] & Hp & Hm' & ->).
           ++ cbn in Hp. rewrite Ht in Hp. injection Hp as <-. now left.
           ++ right. apply Hspec. exists d', t'. auto.
    + destruct (IH acc) as (cs & Hcs & Hspec).
      exists cs. split; [exact Hcs|].
      intros c. split.
      * intros Hin. apply built_from_cons. now apply Hspec.
      * intros (d' & t' & [<- | Hin] & Hp & Hm' & ->).
        -- cbn in Hm'. congruence.
        -- apply Hspec. exists d', t'. auto.
Qed.

Lemma loop_parses n direction deps :
  forall acc cs,
    get_connections_loop n direction deps acc = Ok cs -> Forall parses deps.
Proof.
  induction deps as [|d deps IH]; intros acc cs H.
  - constructor.
  - destruct d as [tr de ti re]. cbn [get_connections_loop] in H.
    destruct (Datetime.strptime ti) as [t|e] eqn:Ht; [|discriminate].
    cbn [rbind] in H. constructor.
    + unfold parses. cbn. now rewrite Ht.
    + destruct (in_direction de direction); eapply IH; exact H.
Qed.

Lemma get_connections_built env start direction deps cs :
  getDeparturesForStop env start = Ok deps ->
  get_connections env start direction = Ok cs ->
  forall c, In c cs <-> built_from (now env) direction deps c.
Proof.
  intros Hd H. unfold get_connections in H. rewrite Hd in H. cbn [rbind] in H.
  pose proof (loop_parses _ _ _ _ _ H) as Hp.
  destruct (loop_ok (now env) direction deps Hp []) as (cs' & Hcs & Hspec).
  rewrite H in Hcs. cbn in Hcs. injection Hcs as ->. exact Hspec.
Qed.

Lemma get_connections_total env start direction deps :
  getDeparturesForStop env start = Ok deps ->
  Forall parses deps ->
  exists cs, get_connections env start direction = Ok cs.
Proof.
  intros Hd Hp. unfold get_connections. rewrite Hd. cbn [rbind].
  destruct (loop_ok (now env) direction deps Hp []) as (cs & Hcs & _).
  eauto.
Qed.

(** ** The minimum *)

Lemma key_le_refl c : pair_delta c -> key_le c c.
Proof.
  intros (a & b & H). unfold key_le, lex_le. rewrite H. cbn. lia.
Qed.

Lemma key_le_trans c1 c2 c3 : key_le c1 c2 -> key_le c2 c3 -> key_le c1 c3.
Proof.
  unfold key_le, lex_le.
  destruct (delta c1), (delta c2), (delta c3); cbn; try tauto. lia.
Qed.

Lemma min_loop_spec items :
  forall best,
    Forall pair_delta (best :: items) ->
    exists c, min_loop best items = Ok c
              /\ In c (best :: items)
              /\ forall x, In x (best :: items) -> key_le c x.
Proof.
  induction items as [|y items IH]; intros best HF.
  - exists best. cbn. repeat split; auto.
    intros x [<- | []]. apply key_le_refl. now inversion HF.
  - inversion HF as [|? ? Hb HF']; subst.
    inversion HF' as [|? ? Hy HF'']; subst.
    destruct Hb as (a & b & Hb), Hy as (a' & b' & Hy).
    cbn [min_loop]. unfold value_lt. rewrite Hy, Hb. cbn [rbind].
    destruct ((a' <? a) || (a' =? a) && (b' <? b)) eqn:Hlt.
    + destruct (IH y) as (c & Hc & Hin & Hmin).
      { constructor; [exists a', b'; exact Hy | exact HF'']. }
      exists c. split; [exact Hc|]. split; [right; exact Hin|].
      intros x [<- | Hx]; [|now apply Hmin].
      apply key_le_trans with y; [apply Hmin; now left|].
      unfold key_le, lex_le. rewrite Hy, Hb. cbn. lia.
    + destruct (IH best) as (c & Hc & Hin & Hmin).
      { constructor; [exists a, b; exact Hb | exact HF'']. }
      exists c. split; [exact Hc|]. split.
      * destruct Hin as [<- | Hin]; [now left | right; now right].
      * intros x [<- | [<- | Hx]].
        -- apply Hmin. now left.
        -- apply key_le_trans with best; [apply Hmin; now left|].
           unfold key_le, lex_le. rewrite Hy, Hb. cbn. lia.
        -- apply Hmin. now right.
Qed.

Lemma min_loop_in items :
  forall best c, min_loop best items = Ok c -> In c (best :: items).
Proof.
  induction items as [|y items IH]; intros best c H.
  - cbn in H. injection H as ->. now left.
  - cbn [min_loop] in H.
    destruct (value_lt (delta y) (delta best)) as [b|e]; [|discriminate].
    cbn [rbind] in H. apply IH in H. destruct b.
    + right. exact H.
    + destruct H as [<- | H]; [now left | right; now right].
Qed.

Lemma get_next_connection_in cs c :
  get_next_connection cs = Ok c -> In c cs.
Proof.
  destruct cs as [|x items]; [discriminate|]. apply min_loop_in.
Qed.

Lemma built_from_pair n direction deps c :
  built_from n direction deps c -> pair_delta c.
Proof. intros (d & t & _ & _ & _ & ->). cbn. red. cbn. eauto. Qed.

Lemma scenario_parses : Forall parses scenario_departures.
Proof. repeat constructor. Qed.

(** ** Connection selector *)

Lemma delta_of_wrapped (n t : Datetime.datetime) :
  delta_of n t = wrapped_delta n t.
Proof. rewrite delta_of_eq, sub_seconds. reflexivity. Qed.

(** With a departure today at 10:02 and one tomorrow at 10:01, the
    selector returns tomorrow's, with the delta (1, 0): its difference
    to now is 1441 minutes, that of today's departure 2 minutes. *)
Lemma selector_not_least_second_difference :
  (let! cs := get_connections two_days_env "Hauptbahnhof" ["Schkeuditz"] in
   get_next_connection cs)
  = Ok {| tram := "11"; destination := "Schkeuditz"; time := "10:01";
          delta := VPair 1 0 |}
  /\ second_difference_delta (now two_days_env)
       (Datetime.DT 2024 1 2 10 1 0 0) = (1441, 0)
  /\ second_difference_delta (now two_days_env)
       (Datetime.DT 2024 1 1 10 2 0 0) = (2, 0)
  /\ ~ selects_least_second_difference.
Proof.
  split; [reflexivity|]. split; [reflexivity|]. split; [reflexivity|].
  intros H.
  destruct (H two_days_env "Hauptbahnhof" ["Schkeuditz"] _ _
              eq_refl eq_refl)
    as (d & t & Hin & _ & Ht & Htram & _ & Hmin).
  destruct Hin as [<- | [<- | []]].
  - discriminate Htram.
  - cbn in Ht. injection Ht as <-.
    specialize (Hmin (Departure "4" "Schkeuditz" "2024.01.01.10:02:00" [])
                     (Datetime.DT 2024 1 1 10 2 0 0)
                     (or_introl eq_refl) (or_introl eq_refl) eq_refl).
    vm_compute in Hmin. destruct Hmin as [Hlt | [Heq _]]; discriminate.
Qed.

(** C1, as the code has it. Among the departures whose destination is
    in the destination list, the selector returns one with the smallest
    delta, where the delta is the pair (s div 60, s mod 60) of
    s = the seconds of [time - now], that is the whole seconds from now
    to the scheduled time taken modulo one day (for a departure within
    the coming day, these seconds themselves); pairs compare
    lexicographically, minutes first, seconds as tie-break.  The
    selection succeeds whenever the timestamps are in the service's
    format and some departure is retained. *)
Theorem next_connection_has_smallest_delta
    (env : environment) (start : string) (direction : list string)
    (deps : list departure) :
  getDeparturesForStop env start = Ok deps ->
  Forall parses deps ->
  Exists (fun d => In (dep_destination d) direction) deps ->
  exists d t c,
    (let! cs := get_connections env start direction in
     get_next_connection cs) = Ok c
    /\ In d deps /\ In (dep_destination d) direction
    /\ Datetime.strptime (dep_time d) = Ok t
    /\ c = {| tram := dep_tram d;
              destination := dep_destination d;
              time := Datetime.strftime t;
              delta :=
                VPair (Datetime.seconds (Datetime.sub t (now env)) / 60)
                      (Datetime.seconds (Datetime.sub t (now env)) mod 60) |}
    /\ delta c = VPair (fst (wrapped_delta (now env) t))
                       (snd (wrapped_delta (now env) t))
    /\ (0 <= instant t - instant (now env) < 86400 * 1000000 ->
        delta c = VPair (fst (second_difference_delta (now env) t))
                        (snd (second_difference_delta (now env) t)))
    /\ forall d' t',
         In d' deps -> In (dep_destination d') direction ->
         Datetime.strptime (dep_time d') = Ok t' ->
         lex_le (wrapped_delta (now env) t) (wrapped_delta (now env) t').
Proof.
  intros Hd Hp Hex.
  destruct (get_connections_total env start direction deps Hd Hp) as [cs Hcs].
  pose proof (get_connections_built env start direction deps cs Hd Hcs) as Hb.
  rewrite Hcs. cbn [rbind].
  apply List.Exists_exists in Hex. destruct Hex as (d0 & Hd0 & Hm0).
  rewrite List.Forall_forall in Hp.
  destruct (parses_inv d0 (Hp d0 Hd0)) as [t0 Ht0].
  assert (In (conn_of (now env) d0 t0) cs) as Hin0.
  { apply Hb. exists d0, t0. repeat split; auto. now apply in_direction_In. }
  destruct cs as [|x items]; [destruct Hin0|].
  assert (Forall pair_delta (x :: items)) as Hpair.
  { apply List.Forall_forall. intros c Hc. apply Hb in Hc.
    eapply built_from_pair; exact Hc. }
  destruct (min_loop_spec items x Hpair) as (c & Hc & Hin & Hmin).
  pose proof (proj1 (Hb c) Hin) as (d & t & Hdin & Ht & Hm & Hceq).
  exists d, t, c. split; [exact Hc|].
  split; [exact Hdin|]. split; [now apply in_direction_In|].
  split; [exact Ht|]. split; [exact Hceq|]. split.
  { rewrite Hceq. cbn [conn_of delta]. now rewrite delta_of_wrapped. }
  split.
  { intros Hday. rewrite Hceq. cbn [conn_of delta].
    rewrite delta_of_eq, sub_seconds_same_day by exact Hday. reflexivity. }
  intros d' t' Hd' Hm' Ht'.
  assert (In (conn_of (now env) d' t') (x :: items)) as Hin'.
  { apply Hb. exists d', t'. repeat split; auto. now apply in_direction_In. }
  specialize (Hmin _ Hin'). subst c. unfold key_le in Hmin. cbn in Hmin.
  rewrite <- !delta_of_wrapped. exact Hmin.
Qed.

Lemma next_connection_has_smallest_delta_witness :
  exists d t c,
    (let! cs := get_connections two_days_env "Hauptbahnhof"
                  ["Schkeuditz"] in
     get_next_connection cs) = Ok c
    /\ In d [Departure "4" "Schkeuditz" "2024.01.01.10:02:00" [];
             Departure "11" "Schkeuditz" "2024.01.02.10:01:00" []]
    /\ In (dep_destination d) ["Schkeuditz"]
    /\ Datetime.strptime (dep_time d) = Ok t
    /\ c = {| tram := dep_tram d;
              destination := dep_destination d;
              time := Datetime.strftime t;
              delta :=
                VPair
                  (Datetime.seconds (Datetime.sub t (now two_days_env)) / 60)
                  (Datetime.seconds (Datetime.sub t (now two_days_env))
                   mod 60) |}
    /\ delta c = VPair (fst (wrapped_delta (now two_days_env) t))
                       (snd (wrapped_delta (now two_days_env) t))
    /\ (0 <= instant t - instant (now two_days_env) < 86400 * 1000000 ->
        delta c = VPair (fst (second_difference_delta (now two_days_env) t))
                        (snd (second_difference_delta (now two_days_env) t)))
    /\ forall d' t',
         In d' [Departure "4" "Schkeuditz" "2024.01.01.10:02:00" [];
                Departure "11" "Schkeuditz" "2024.01.02.10:01:00" []] ->
         In (dep_destination d') ["Schkeuditz"] ->
         Datetime.strptime (dep_time d') = Ok t' ->
         lex_le (wrapped_delta (now two_days_env) t)
                (wrapped_delta (now two_days_env) t').
Proof.
  apply (next_connection_has_smallest_delta two_days_env "Hauptbahnhof"
           ["Schkeuditz"]
           [Departure "4" "Schkeuditz" "2024.01.01.10:02:00" [];
            Departure "11" "Schkeuditz" "2024.01.02.10:01:00" []]).
  - reflexivity.
  - repeat constructor.
  - apply Exists_cons_hd. left. reflexivity.
Defined.

(** C2. Every connection that the selector emits, in the list of
    [get_connections] and as the result of [get_next_connection], has a
    destination that is a member of the caller's destination list; and
    the list is produced whenever the remote call returns departures
    whose timestamps are in the service's format. *)
Theorem emitted_destination_in_direction
    (env : environment) (start : string) (direction : list string) :
  (forall cs,
     get_connections env start direction = Ok cs ->
     Forall (fun c => In (destination c) direction) cs)
  /\ (forall c,
        (let! cs := get_connections env start direction in
         get_next_connection cs) = Ok c ->
        In (destination c) direction)
  /\ (forall deps,
        getDeparturesForStop env start = Ok deps ->
        Forall parses deps ->
        exists cs, get_connections env start direction = Ok cs).
Proof.
  assert (forall cs,
            get_connections env start direction = Ok cs ->
            Forall (fun c => In (destination c) direction) cs) as Hall.
  { intros cs Hcs.
    destruct (getDeparturesForStop env start) as [deps|e] eqn:Hd.
    - apply List.Forall_forall. intros c Hc.
      apply (get_connections_built env start direction deps cs Hd Hcs) in Hc.
      destruct Hc as (d & t & _ & _ & Hm & ->). cbn.
      now apply in_direction_In.
    - unfold get_connections in Hcs. rewrite Hd in Hcs. discriminate. }
  split; [exact Hall|]. split.
  - intros c H.
    destruct (get_connections env start direction) as [cs|e] eqn:Hcs;
      [|discriminate].
    cbn [rbind] in H. apply get_next_connection_in in H.
    specialize (Hall cs eq_refl). rewrite List.Forall_forall in Hall.
    now apply Hall.
  - intros deps Hd Hp. now apply get_connections_total with deps.
Qed.

Lemma emitted_destination_in_direction_witness :
  Forall (fun c => In (destination c) ["Schkeuditz"])
    [{| tram := "3"; destination := "Schkeuditz"; time := "10:05";
        delta := VPair 5 0 |}]
  /\ In (destination {| tram := "3"; destination := "Schkeuditz";
                        time := "10:05"; delta := VPair 5 0 |})
        ["Schkeuditz"]
  /\ exists cs,
       get_connections scenario_env "Hauptbahnhof" ["Schkeuditz"] = Ok cs.
Proof.
  destruct (emitted_destination_in_direction scenario_env "Hauptbahnhof"
              ["Schkeuditz"]) as (H1 & H2 & H3).
  split; [|split].
  - apply H1. reflexivity.
  - apply H2. reflexivity.
  - apply (H3 scenario_departures); [reflexivity | exact scenario_parses].
Defined.

Lemma get_connections_no_match env start direction deps :
  getDeparturesForStop env start = Ok deps ->
  Forall parses deps ->
  (forall d, In d deps -> ~ In (dep_destination d) direction) ->
  get_connections env start direction = Ok [].
Proof.
  intros Hd Hp Hno.
  destruct (get_connections_total env start direction deps Hd Hp) as [cs Hcs].
  pose proof (get_connections_built env start direction deps cs Hd Hcs) as Hb.
  destruct cs as [|c cs]; [exact Hcs|].
  exfalso. destruct (proj1 (Hb c) (or_introl eq_refl))
    as (d & t & Hin & _ & Hm & _).
  apply (Hno d Hin). now apply in_direction_In.
Qed.

(** ** Access gate *)

Lemma gate_condition (s : self) (u : update) :
  truthy (allowed_ids s)
  && id_in (chat_id (upd_message u)) (allowed_ids s) = true
  <-> allowed s u.
Proof.
  unfold allowed. destruct (allowed_ids s) as [[|x l]|]; cbn [truthy id_in].
  - split; [discriminate | intros (l & H & Hne & _); congruence].
  - rewrite andb_true_l, List.existsb_exists. split.
    + intros (y & Hy & He). apply Z.eqb_eq in He. subst y.
      exists (x :: l). repeat split; [discriminate | exact Hy].
    + intros (l' & H & _ & Hin). injection H as <-.
      exists (chat_id (upd_message u)). split; [exact Hin | apply Z.eqb_refl].
  - split; [discriminate | intros (l & H & _); discriminate].
Qed.

Lemma check_id_cases func (s : self) (u : update) (w : world) :
  (allowed s u /\ check_id func s u w = func s u w)
  \/ (~ allowed s u /\ check_id func s u w = (Ok tt, dropped u w)).
Proof.
  pose proof (gate_condition s u) as G. unfold check_id.
  destruct (truthy (allowed_ids s)
            && id_in (chat_id (upd_message u)) (allowed_ids s)).
  - left. split; [now apply G | reflexivity].
  - right. split; [|reflexivity].
    intros Ha. apply G in Ha. discriminate.
Qed.

Lemma check_id_allowed func (s : self) (u : update) (w : world) :
  allowed s u -> check_id func s u w = func s u w.
Proof.
  intros H. destruct (check_id_cases func s u w) as [[_ E] | [N _]];
    [exact E | contradiction].
Qed.

Lemma check_id_denied func (s : self) (u : update) (w : world) :
  ~ allowed s u -> check_id func s u w = (Ok tt, dropped u w).
Proof.
  intros H. destruct (check_id_cases func s u w) as [[A _] | [_ E]];
    [contradiction | exact E].
Qed.



(** ** No connection found *)

Lemma reply_next_not_found env stop direction (u : update) (w : world) deps :
  getDeparturesForStop env stop = Ok deps ->
  Forall parses deps ->
  (forall d, In d deps -> ~ In (dep_destination d) direction) ->
  reply_next env stop direction u w
  = (Ok tt, {| sent := sent w ++ [(chat_id (upd_message u),
                                   "Keine Verbindung gefunden.")];
               log := log w |}).
Proof.
  intros Hd Hp Hno. unfold reply_next, bind, lift.
  rewrite (get_connections_no_match env stop direction deps Hd Hp Hno).
  reflexivity.
Qed.

(** C4. When no departure's destination is in the allowed destination
    list, the selection fails with the [ValueError] of [min] on an empty
    list, and the handlers [home] and [work], for an allowed identity,
    recover from it and reply with "Keine Verbindung gefunden.".  The
    departures are those of the service: their timestamps are in its
    format. *)
Theorem no_match_replies_not_found
    (env : environment) (s : self) (u : update) (w : world)
    (deps : list departure) :
  allowed s u ->
  Forall parses deps ->
  (getDeparturesForStop env (workplace s) = Ok deps ->
   (forall d, In d deps -> ~ In (dep_destination d) (direction_home s)) ->
   (let! cs := get_connections env (workplace s) (direction_home s) in
    get_next_connection cs) = Raise ValueError
   /\ home env s u w
      = (Ok tt, {| sent := sent w ++ [(chat_id (upd_message u),
                                       "Keine Verbindung gefunden.")];
                   log := log w |}))
  /\ (getDeparturesForStop env (home_address s) = Ok deps ->
      (forall d, In d deps ->
                 ~ In (dep_destination d) (direction_workplace s)) ->
      (let! cs := get_connections env (home_address s)
                    (direction_workplace s) in
       get_next_connection cs) = Raise ValueError
      /\ work env s u w
         = (Ok tt, {| sent := sent w ++ [(chat_id (upd_message u),
                                          "Keine Verbindung gefunden.")];
                      log := log w |})).
Proof.
  intros Ha Hp. split; intros Hd Hno.
  - split.
    + now rewrite (get_connections_no_match _ _ _ deps Hd Hp Hno).
    + unfold home. rewrite (check_id_allowed _ _ _ _ Ha).
      now apply reply_next_not_found with deps.
  - split.
    + now rewrite (get_connections_no_match _ _ _ deps Hd Hp Hno).
    + unfold work. rewrite (check_id_allowed _ _ _ _ Ha).
      now apply reply_next_not_found with deps.
Qed.

Lemma scenario_no_dresden :
  forall d, In d scenario_departures -> ~ In (dep_destination d) ["Dresden"].
Proof.
  intros d [<- | [<- | []]] [E | []]; discriminate E.
Qed.

Lemma scenario_allowed :
  allowed (scenario_bot ["Dresden"]) (scenario_update 111).
Proof. exists [111]. repeat split; [discriminate | now left]. Qed.

Lemma no_match_replies_not_found_witness :
  home scenario_env (scenario_bot ["Dresden"]) (scenario_update 111)
       empty_world
  = (Ok tt, {| sent := [(111, "Keine Verbindung gefunden.")]; log := [] |})
  /\ work scenario_env (scenario_bot ["Dresden"]) (scenario_update 111)
          empty_world
     = (Ok tt, {| sent := [(111, "Keine Verbindung gefunden.")]; log := [] |}).
Proof.
  destruct (no_match_replies_not_found scenario_env
              (scenario_bot ["Dresden"]) (scenario_update 111) empty_world
              scenario_departures scenario_allowed scenario_parses)
    as [Hh Hw].
  split.
  - apply Hh; [reflexivity | exact scenario_no_dresden].
  - apply Hw; [reflexivity | exact scenario_no_dresden].
Defined.

(** ** The delta of a departure *)

(** C9. Whatever the scheduled timestamp, the delta has
    [0 <= minutes <= 1439] and [0 <= seconds <= 59], for every departure
    read and for every connection built: only the seconds component of
    the normalised difference is used and its days are dropped.  So a
    departure one day later gets the same delta, and a departure
    24 hours plus [N] minutes away gets the delta [(N, 0)] of one
    [N] minutes away. *)
Theorem delta_discards_days :
  (forall n t,
     0 <= fst (delta_of n t) <= 1439 /\ 0 <= snd (delta_of n t) <= 59)
  /\ (forall env start direction cs,
        get_connections env start direction = Ok cs ->
        Forall (fun c => exists m s, delta c = VPair m s
                                     /\ 0 <= m <= 1439 /\ 0 <= s <= 59) cs)
  /\ (forall n t t',
        instant t' = instant t + 86400 * 1000000 ->
        delta_of n t' = delta_of n t)
  /\ (forall n t t' N,
        0 <= N < 1440 ->
        instant t - instant n = N * 60 * 1000000 ->
        instant t' - instant n = (24 * 60 + N) * 60 * 1000000 ->
        delta_of n t = (N, 0) /\ delta_of n t' = (N, 0)).
Proof.
  assert (forall n t t',
            instant t' = instant t + 86400 * 1000000 ->
            delta_of n t' = delta_of n t) as Hshift.
  { intros n t t' H. rewrite !delta_of_eq, !sub_seconds.
    replace (instant t' - instant n)
      with ((instant t - instant n) + 86400 * 1000000) by lia.
    rewrite Z.div_add by lia.
    replace ((instant t - instant n) / 1000000 + 86400)
      with ((instant t - instant n) / 1000000 + 1 * 86400) by lia.
    rewrite Z.mod_add by lia. reflexivity. }
  split; [intros n t; apply delta_of_range|]. split; [|split].
  - intros env start direction cs Hcs.
    destruct (getDeparturesForStop env start) as [deps|e] eqn:Hd.
    + apply List.Forall_forall. intros c Hc.
      apply (get_connections_built env start direction deps cs Hd Hcs) in Hc.
      destruct Hc as (d & t & _ & _ & _ & ->). cbn [conn_of delta].
      eexists _, _. split; [reflexivity|]. apply delta_of_range.
    + unfold get_connections in Hcs. rewrite Hd in Hcs. discriminate.
  - exact Hshift.
  - intros n t t' N HN Ht Ht'.
    assert (delta_of n t = (N, 0)) as E.
    { rewrite delta_of_eq, sub_seconds_same_day by lia. rewrite Ht.
      rewrite Z.div_mul by lia. rewrite Z.div_mul, Z.mod_mul by lia.
      reflexivity. }
    split; [exact E|]. rewrite <- E. apply Hshift. lia.
Qed.

Lemma delta_discards_days_witness :
  delta_of (Datetime.DT 2024 1 1 10 0 0 0) (Datetime.DT 2024 1 1 10 5 0 0)
  = (5, 0)
  /\ delta_of (Datetime.DT 2024 1 1 10 0 0 0) (Datetime.DT 2024 1 2 10 5 0 0)
     = (5, 0).
Proof.
  apply (proj2 (proj2 (proj2 delta_discards_days))
           (Datetime.DT 2024 1 1 10 0 0 0) (Datetime.DT 2024 1 1 10 5 0 0)
           (Datetime.DT 2024 1 2 10 5 0 0) 5).
  - lia.
  - reflexivity.
  - reflexivity.
Defined.

(** A departure scheduled one minute ago gets 1439 minutes, not 1. *)
Lemma past_delta_not_absolute :
  instant (Datetime.DT 2024 1 1 10 0 0 0)
  < instant (Datetime.DT 2024 1 1 10 1 0 0)
  /\ delta_of (Datetime.DT 2024 1 1 10 1 0 0) (Datetime.DT 2024 1 1 10 0 0 0)
     = (1439, 0)
  /\ Z.abs ((instant (Datetime.DT 2024 1 1 10 0 0 0)
             - instant (Datetime.DT 2024 1 1 10 1 0 0)) / 1000000) / 60 = 1
  /\ ~ past_delta_is_absolute.
Proof.
  split; [reflexivity|]. split; [reflexivity|]. split; [reflexivity|].
  intros H.
  specialize (H (Datetime.DT 2024 1 1 10 1 0 0)
                (Datetime.DT 2024 1 1 10 0 0 0) eq_refl).
  discriminate H.
Qed.

(** C6, as the code has it. For a departure scheduled earlier than now
    the delta is taken from the seconds component of the day-normalised
    difference: minutes = floor(s / 60) with
    s = floor((scheduled - now) in seconds) mod 86400, a value in
    [0, 86400); up to one day back, s is a day minus the elapsed time. *)
Theorem past_delta_wraps_around (n t : Datetime.datetime) :
  instant t < instant n ->
  let s := ((instant t - instant n) / 1000000) mod 86400 in
  delta_of n t = (s / 60, s mod 60)
  /\ 0 <= s < 86400
  /\ (- (86400 * 1000000) <= instant t - instant n ->
      s = 86400 + (instant t - instant n) / 1000000).
Proof.
  intros Hlt s. split; [|split].
  - rewrite delta_of_eq, sub_seconds. reflexivity.
  - apply Z.mod_pos_bound. lia.
  - intros Hday. unfold s. rewrite <- sub_seconds.
    apply sub_seconds_past_day. lia.
Qed.

Lemma past_delta_wraps_around_witness :
  delta_of (Datetime.DT 2024 1 1 10 1 0 0) (Datetime.DT 2024 1 1 10 0 0 0)
  = (1439, 0).
Proof.
  apply (proj1 (past_delta_wraps_around (Datetime.DT 2024 1 1 10 1 0 0)
                  (Datetime.DT 2024 1 1 10 0 0 0) eq_refl)).
Defined.

(** ** Presentation formatter *)

Lemma str_is_not_token (m : Z) : Py.str m <> "< 1".
Proof.
  unfold Py.str. destruct (Z.to_int m) as [u|u]; destruct u; discriminate.
Qed.

Lemma two_digits_shape (n : Z) :
  0 <= n <= 59 -> is_two_digits (Datetime.two_digits n) = true.
Proof.
  intros H.
  assert (forallb (fun k => is_two_digits (Datetime.two_digits (Z.of_nat k)))
            (seq 0 60) = true) as Hall by (vm_compute; reflexivity).
  rewrite forallb_forall in Hall.
  specialize (Hall (Z.to_nat n)). rewrite Z2Nat.id in Hall by lia.
  apply Hall. apply in_seq. lia.
Qed.

Lemma strftime_shape (t : Datetime.datetime) :
  0 <= Datetime.hour t <= 23 -> 0 <= Datetime.minute t <= 59 ->
  is_HHMM (Datetime.strftime t) = true.
Proof.
  intros Hh Hm. unfold Datetime.strftime.
  assert (is_two_digits (Datetime.two_digits (Datetime.hour t)) = true) as H1
    by (apply two_digits_shape; lia).
  pose proof (two_digits_shape (Datetime.minute t) Hm) as H2.
  destruct (Datetime.two_digits (Datetime.hour t))
    as [|a [|b [|? ?]]]; try discriminate H1.
  destruct (Datetime.two_digits (Datetime.minute t))
    as [|c [|d [|? ?]]]; try discriminate H2.
  change (Py.isdigit a && Py.isdigit b = true) in H1.
  change (Py.isdigit c && Py.isdigit d = true) in H2.
  change (Py.isdigit a && Py.isdigit b && Py.isdigit c && Py.isdigit d
          = true).
  apply andb_true_iff in H1, H2.
  destruct H1 as [-> ->], H2 as [-> ->]. reflexivity.
Qed.

Lemma new_fields y m d hh mm ss us t :
  Datetime.new y m d hh mm ss us = Ok t ->
  t = Datetime.DT y m d hh mm ss us /\ 0 <= hh <= 23 /\ 0 <= mm <= 59.
Proof.
  unfold Datetime.new. intros H.
  match type of H with (if ?b then _ else _) = _ => destruct b eqn:E end;
    [|discriminate].
  injection H as <-.
  repeat (apply andb_true_iff in E; destruct E as [E ?]).
  repeat match goal with
         | H : (_ <=? _) = true |- _ => apply Z.leb_le in H
         end.
  split; [reflexivity | lia].
Qed.

Lemma strptime_fields (s : string) (t : Datetime.datetime) :
  Datetime.strptime s = Ok t ->
  0 <= Datetime.hour t <= 23 /\ 0 <= Datetime.minute t <= 59.
Proof.
  unfold Datetime.strptime. intros H.
  repeat case_match; try discriminate.
  apply new_fields in H. destruct H as (-> & Hh & Hm). cbn. lia.
Qed.

(** C5. A selected connection, whose delta is the pair (minutes,
    seconds), is rendered as "line -> destination @ time (minutes Min.)";
    the minutes field is the token "< 1" exactly when the whole-minute
    delta is below 1 and the decimal minutes otherwise (a decimal is
    never that token); the time of every connection built by the
    selector has the shape HH:MM.  In the scenario of two departures at
    10:00:00 with the destination list {Schkeuditz}, [home] replies
    "3 -> Schkeuditz @ 10:05 (5 Min.)". *)
Theorem formatter_renders_connection :
  (forall tr de ti m s,
     fst (return_connection_str
            {| tram := tr; destination := de; time := ti;
               delta := VPair m s |})
     = Ok (tr +:+ " -> " +:+ de +:+ " @ " +:+ ti +:+ " ("
           +:+ (if m <? 1 then "< 1" else Py.str m) +:+ " Min.)"))
  /\ (forall m, Py.str m <> "< 1")
  /\ (forall env start direction cs,
        get_connections env start direction = Ok cs ->
        Forall (fun c => is_HHMM (time c) = true
                         /\ exists m s, delta c = VPair m s) cs)
  /\ home scenario_env (scenario_bot ["Schkeuditz"]) (scenario_update 111)
          empty_world
     = (Ok tt, {| sent := [(111, "3 -> Schkeuditz @ 10:05 (5 Min.)")];
                  log := [] |}).
Proof.
  split; [|split; [exact str_is_not_token | split]].
  - intros tr de ti m s. unfold return_connection_str. cbn.
    destruct (m <? 1); reflexivity.
  - intros env start direction cs Hcs.
    destruct (getDeparturesForStop env start) as [deps|e] eqn:Hd.
    + apply List.Forall_forall. intros c Hc.
      apply (get_connections_built env start direction deps cs Hd Hcs) in Hc.
      destruct Hc as (d & t & _ & Ht & _ & ->). cbn [conn_of delta time].
      split; [|eauto].
      apply strptime_fields in Ht. now apply strftime_shape.
    + unfold get_connections in Hcs. rewrite Hd in Hcs. discriminate.
  - vm_compute. reflexivity.
Qed.

Lemma formatter_renders_connection_witness :
  Forall (fun c => is_HHMM (time c) = true
                   /\ exists m s, delta c = VPair m s)
    [{| tram := "3"; destination := "Schkeuditz"; time := "10:05";
        delta := VPair 5 0 |}].
Proof.
  apply (proj1 (proj2 (proj2 formatter_renders_connection))
           scenario_env "Hauptbahnhof" ["Schkeuditz"]).
  reflexivity.
Defined.

(** C10. Formatting assigns to the connection it is given: after the
    call its [delta] holds the integer minutes or the token "< 1" in
    place of the pair, and the other entries are as before (for any
    connection, also when the call raises).  Formatting the same
    connection again does not repeat the first call: it raises
    [TypeError] and leaves the connection as it is. *)
Theorem formatter_overwrites_delta :
  (forall tr de ti m s,
     let c := {| tram := tr; destination := de; time := ti;
                 delta := VPair m s |} in
     let c1 := snd (return_connection_str c) in
     is_ok (fst (return_connection_str c)) = true
     /\ c1 = {| tram := tr; destination := de; time := ti;
                delta := if m <? 1 then VStr "< 1" else VInt m |}
     /\ delta c1 <> delta c
     /\ return_connection_str c1 = (Raise TypeError, c1))
  /\ (forall c,
        let c1 := snd (return_connection_str c) in
        tram c1 = tram c /\ destination c1 = destination c
        /\ time c1 = time c).
Proof.
  split.
  - intros tr de ti m s. cbn. unfold return_connection_str. cbn.
    destruct (m <? 1); cbn; repeat split; discriminate.
  - intros [tr de ti v]. unfold return_connection_str.
    destruct v as [a b|[|ch r]|n]; cbn; auto.
    destruct (a <? 1); cbn; auto.
Qed.

(** ** Strings: [split], [join], [int] and [str] *)

Section SplitJoin.

Variable sep : ascii.

Lemma split_nonempty (s : string) : Py.split sep s <> [].
Proof.
  destruct s as [|c r]; cbn; [discriminate|].
  destruct (Ascii.eqb c sep); [discriminate|].
  destruct (Py.split sep r); discriminate.
Qed.

Lemma split_without_sep (x : string) :
  Py.contains sep x = false -> Py.split sep x = [x].
Proof.
  induction x as [|c r IH]; cbn; [reflexivity|].
  intros H. apply orb_false_iff in H. destruct H as [Hc Hr].
  rewrite Hc, (IH Hr). reflexivity.
Qed.

Lemma split_append (x rest : string) :
  Py.contains sep x = false ->
  Py.split sep (x +:+ (String sep EmptyString) +:+ rest) = x :: Py.split sep rest.
Proof.
  induction x as [|c r IH]; intros H.
  - change (Py.split sep (String sep rest) = EmptyString :: Py.split sep rest).
    cbn [Py.split]. rewrite Ascii.eqb_refl. reflexivity.
  - cbn in H. apply orb_false_iff in H. destruct H as [Hc Hr].
    change (Py.split sep
              (String c (r +:+ String sep EmptyString +:+ rest))
            = String c r :: Py.split sep rest).
    cbn [Py.split]. rewrite Hc, (IH Hr). reflexivity.
Qed.

Lemma split_join (l : list string) :
  l <> [] ->
  Forall (fun x => Py.contains sep x = false) l ->
  Py.split sep (Py.join (String sep EmptyString) l) = l.
Proof.
  induction l as [|x [|y l] IH]; intros Hne HF.
  - contradiction.
  - cbn. apply split_without_sep. now inversion HF.
  - inversion HF as [|? ? Hx HF']; subst.
    change (Py.join (String sep EmptyString) (x :: y :: l))
      with (x +:+ (String sep EmptyString) +:+ Py.join (String sep EmptyString) (y :: l)).
    rewrite split_append by exact Hx.
    rewrite IH; [reflexivity | discriminate | exact HF'].
Qed.

Lemma join_cons_char (c : ascii) (w : string) (ws : list string) :
  Py.join (String sep EmptyString) (String c w :: ws) = String c (Py.join (String sep EmptyString) (w :: ws)).
Proof. destruct ws; reflexivity. Qed.

Lemma join_split (s : string) : Py.join (String sep EmptyString) (Py.split sep s) = s.
Proof.
  induction s as [|c r IH]; [reflexivity|].
  cbn [Py.split]. destruct (Ascii.eqb c sep) eqn:E.
  - apply Ascii.eqb_eq in E. subst c.
    destruct (Py.split sep r) as [|w ws] eqn:Hs.
    + now apply split_nonempty in Hs.
    + change (Py.join (String sep EmptyString) (EmptyString :: w :: ws))
        with (String sep (Py.join (String sep EmptyString) (w :: ws))).
      now rewrite IH.
  - destruct (Py.split sep r) as [|w ws] eqn:Hs.
    + now apply split_nonempty in Hs.
    + rewrite join_cons_char. now rewrite IH.
Qed.

Lemma split_pieces_without_sep (s : string) :
  Forall (fun x => Py.contains sep x = false) (Py.split sep s).
Proof.
  induction s as [|c r IH]; cbn [Py.split].
  - repeat constructor.
  - destruct (Ascii.eqb c sep) eqn:E.
    + constructor; [reflexivity | exact IH].
    + destruct (Py.split sep r) as [|w ws].
      * constructor; [cbn; now rewrite E | constructor].
      * inversion IH; subst. constructor; [cbn; now rewrite E | assumption].
Qed.
End SplitJoin.

Lemma strip_free (sp : ascii -> bool) (s : string) :
  free_of sp s = true -> Py.strip_with sp s = s.
Proof.
  intros H. unfold Py.strip_with.
  assert (Py.lstrip_with sp s = s) as ->.
  { destruct s as [|c r]; [reflexivity|]. cbn in *.
    destruct (sp c); [discriminate | reflexivity]. }
  induction s as [|c r IH]; [reflexivity|].
  cbn in *. apply andb_true_iff in H. destruct H as [Hc Hr].
  rewrite (IH Hr). destruct r; [|reflexivity].
  destruct (sp c); [discriminate | reflexivity].
Qed.

Lemma digit_properties (c : ascii) :
  Py.isdigit c = true ->
  Py.isblank c = false /\ Ascii.eqb c "," = false.
Proof.
  destruct c as [[] [] [] [] [] [] [] []]; cbn; intros H;
    try discriminate H; split; reflexivity.
Qed.

Lemma all_digits_free (s : string) :
  all_digits s = true ->
  free_of Py.isblank s = true /\ Py.contains "," s = false.
Proof.
  induction s as [|c r IH]; cbn; [auto|].
  intros H. apply andb_true_iff in H. destruct H as [Hc Hr].
  destruct (digit_properties c Hc) as [-> ->]. cbn. now apply IH.
Qed.

Lemma string_of_uint_digits (u : uint) :
  all_digits (NilEmpty.string_of_uint u) = true.
Proof. induction u; cbn; auto. Qed.

Lemma digits_string_of_uint (u : uint) :
  forall b, (u = Nil -> b = false) ->
            Py.digits b (NilEmpty.string_of_uint u) = Some u.
Proof.
  induction u; intros b Hb; cbn;
    try (rewrite IHu by reflexivity; reflexivity).
  rewrite Hb; reflexivity.
Qed.

Lemma nilzero_digits (u : uint) :
  all_digits (NilZero.string_of_uint u) = true
  /\ exists u', Py.digits true (NilZero.string_of_uint u) = Some u'
                /\ Z.of_uint u' = Z.of_uint u.
Proof.
  split.
  - destruct u; try apply string_of_uint_digits. reflexivity.
  - destruct u;
      try (eexists; split;
           [apply digits_string_of_uint; discriminate | reflexivity]).
    exists (D0 Nil). split; reflexivity.
Qed.

Lemma int_of_unsigned (u : uint) :
  Py.int (NilZero.string_of_uint u) = Some (Z.of_uint u).
Proof.
  destruct (nilzero_digits u) as (Hd & u' & Hu' & Hz).
  unfold Py.int. cbv zeta.
  rewrite strip_free by (now apply all_digits_free).
  destruct (NilZero.string_of_uint u) as [|c r] eqn:Hs.
  - cbn in Hu'. discriminate.
  - cbn in Hd. apply andb_true_iff in Hd. destruct Hd as [Hc _].
    rewrite <- Hz.
    destruct c as [[] [] [] [] [] [] [] []]; try discriminate Hc;
      rewrite Hu'; reflexivity.
Qed.

Lemma int_of_negative (u : uint) :
  Py.int (String "-" (NilZero.string_of_uint u)) = Some (- Z.of_uint u).
Proof.
  destruct (nilzero_digits u) as (Hd & u' & Hu' & Hz).
  unfold Py.int. cbv zeta.
  rewrite strip_free.
  - rewrite Hu'. cbn. now rewrite Hz.
  - cbn. now apply all_digits_free.
Qed.

Lemma int_str (n : Z) : Py.int (Py.str n) = Some n.
Proof.
  unfold Py.str. rewrite <- (DecimalZ.of_to n) at 2.
  destruct (Z.to_int n) as [u|u]; cbn [NilZero.string_of_int Z.of_int].
  - apply int_of_unsigned.
  - apply int_of_negative.
Qed.

Lemma str_without_comma (n : Z) : Py.contains "," (Py.str n) = false.
Proof.
  unfold Py.str.
  destruct (Z.to_int n) as [u|u]; cbn [NilZero.string_of_int];
    destruct (nilzero_digits u) as (Hd & _).
  - now apply all_digits_free.
  - cbn. now apply all_digits_free.
Qed.

Lemma comprehension_outcome {A B} (f : A -> option B) (l : list A) :
  match Py.comprehension f l with
  | Ok ys => True
  | Raise e => e = ValueError /\ exists x, In x l /\ f x = None
  end.
Proof.
  induction l as [|x l IH]; cbn; [exact I|].
  destruct (f x) eqn:E.
  - destruct (Py.comprehension f l); cbn; [exact I|].
    destruct IH as (-> & y & Hy & Hf). split; [reflexivity|]. eauto.
  - split; [reflexivity|]. eauto.
Qed.

Lemma comprehension_fails {A B} (f : A -> option B) (l : list A) (x : A) :
  In x l -> f x = None -> Py.comprehension f l = Raise ValueError.
Proof.
  induction l as [|y l IH]; intros Hin Hf; [destruct Hin|].
  cbn. destruct Hin as [-> | Hin].
  - now rewrite Hf.
  - destruct (f y); [|reflexivity]. now rewrite (IH Hin Hf).
Qed.

(** ** Configuration loader *)

Lemma section_getitem_named (cp : ConfigParser) (key : string) :
  String.eqb key "DEFAULT" = false ->
  section_getitem cp key
  = if cp_has_section cp key then Ok key else Raise (KeyError key).
Proof. intros H. unfold section_getitem. now rewrite H. Qed.

(** The loader as a chain of tests, in the order of the program. *)
Lemma read_config_unfold (rt : runtime) (filename : string) :
  read_config rt filename
  = let! cp := cp_read rt filename in
    if cp_has_section cp "AUTHENTICATION" then
      let! token := option_getitem cp "AUTHENTICATION" "token" in
      let! allowed_ids := option_getitem cp "AUTHENTICATION" "allowed_ids" in
      let! ids := Py.comprehension (Py.int_limited (int_max_str_digits rt))
                    (Py.split "," allowed_ids) in
      if cp_has_section cp "LOCATIONS" then
        let! workplace := option_getitem cp "LOCATIONS" "workplace" in
        let! direction_workplace :=
          option_getitem cp "LOCATIONS" "direction_workplace" in
        let! home := option_getitem cp "LOCATIONS" "home" in
        let! direction_home :=
          option_getitem cp "LOCATIONS" "direction_home" in
        Ok {| Config.token := token;
              Config.home := home;
              Config.direction_home := Py.split "," direction_home;
              Config.workplace := workplace;
              Config.direction_workplace := Py.split "," direction_workplace;
              Config.ids := ids |}
      else Raise (KeyError "LOCATIONS")
    else Raise (KeyError "AUTHENTICATION").
Proof.
  unfold read_config. destruct (cp_read rt filename) as [cp|e]; cbn [rbind];
    [|reflexivity].
  rewrite !section_getitem_named by reflexivity.
  destruct (cp_has_section cp "AUTHENTICATION"); cbn [rbind]; [|reflexivity].
  destruct (option_getitem cp "AUTHENTICATION" "token"); cbn [rbind];
    [|reflexivity].
  destruct (option_getitem cp "AUTHENTICATION" "allowed_ids"); cbn [rbind];
    [|reflexivity].
  destruct (Py.comprehension _ _); cbn [rbind]; [|reflexivity].
  destruct (cp_has_section cp "LOCATIONS"); reflexivity.
Qed.

Lemma option_getitem_ok cp section key v :
  option_getitem cp section key = Ok v ->
  cp_has_option cp section key = true /\ cp_get cp section key = Ok v.
Proof.
  unfold option_getitem. destruct (cp_has_option cp section key);
    [auto | discriminate].
Qed.

Lemma option_getitem_raise cp section key e :
  option_getitem cp section key = Raise e ->
  (e = KeyError key /\ cp_has_option cp section key = false)
  \/ (cp_has_option cp section key = true
      /\ cp_get cp section key = Raise e).
Proof.
  unfold option_getitem. destruct (cp_has_option cp section key).
  - auto.
  - intros H. injection H as <-. auto.
Qed.

Lemma option_getitem_there cp section key v :
  cp_has_option cp section key = true -> cp_get cp section key = Ok v ->
  option_getitem cp section key = Ok v.
Proof. intros H1 H2. unfold option_getitem. now rewrite H1. Qed.

(** What a loaded configuration says about the parser. *)
Lemma read_config_inv (rt : runtime) (filename : string) (cfg : config) :
  read_config rt filename = Ok cfg ->
  exists cp v dw dh,
    cp_read rt filename = Ok cp
    /\ cp_has_section cp "AUTHENTICATION" = true
    /\ cp_has_section cp "LOCATIONS" = true
    /\ option_getitem cp "AUTHENTICATION" "token" = Ok (Config.token cfg)
    /\ option_getitem cp "AUTHENTICATION" "allowed_ids" = Ok v
    /\ Py.comprehension (Py.int_limited (int_max_str_digits rt))
         (Py.split "," v) = Ok (Config.ids cfg)
    /\ option_getitem cp "LOCATIONS" "workplace" = Ok (Config.workplace cfg)
    /\ option_getitem cp "LOCATIONS" "direction_workplace" = Ok dw
    /\ option_getitem cp "LOCATIONS" "home" = Ok (Config.home cfg)
    /\ option_getitem cp "LOCATIONS" "direction_home" = Ok dh
    /\ Config.direction_workplace cfg = Py.split "," dw
    /\ Config.direction_home cfg = Py.split "," dh.
Proof.
  rewrite read_config_unfold.
  destruct (cp_read rt filename) as [cp|e]; cbn [rbind]; [|discriminate].
  destruct (cp_has_section cp "AUTHENTICATION") eqn:HA; [|discriminate].
  destruct (option_getitem cp "AUTHENTICATION" "token") as [tk|] eqn:Ht;
    cbn [rbind]; [|discriminate].
  destruct (option_getitem cp "AUTHENTICATION" "allowed_ids") as [v|] eqn:Hi;
    cbn [rbind]; [|discriminate].
  destruct (Py.comprehension _ _) as [l|] eqn:Hl; cbn [rbind];
    [|discriminate].
  destruct (cp_has_section cp "LOCATIONS") eqn:HL; [|discriminate].
  destruct (option_getitem cp "LOCATIONS" "workplace") as [wp|] eqn:Hw;
    cbn [rbind]; [|discriminate].
  destruct (option_getitem cp "LOCATIONS" "direction_workplace")
    as [dw|] eqn:Hdw; cbn [rbind]; [|discriminate].
  destruct (option_getitem cp "LOCATIONS" "home") as [hm|] eqn:Hh;
    cbn [rbind]; [|discriminate].
  destruct (option_getitem cp "LOCATIONS" "direction_home")
    as [dh|] eqn:Hdh; cbn [rbind]; [|discriminate].
  intros H. injection H as <-. exists cp, v, dw, dh. cbn.
  repeat split; auto.
Qed.

Lemma comprehension_outcome_limited limit (l : list string) :
  match Py.comprehension (Py.int_limited limit) l with
  | Ok ys => True
  | Raise e => e = ValueError
               /\ exists x, In x l /\ Py.int_limited limit x = None
  end.
Proof. apply comprehension_outcome. Qed.

(** A failure of the loader has one of four sources. *)
Lemma read_config_failure (rt : runtime) (filename : string) (e : exn) :
  read_config rt filename = Raise e ->
  cp_read rt filename = Raise e
  \/ exists cp,
       cp_read rt filename = Ok cp
       /\ ((exists k,
              e = KeyError k
              /\ (k = "AUTHENTICATION" \/ k = "LOCATIONS")
              /\ cp_has_section cp k = false)
           \/ (exists section k,
                 e = KeyError k
                 /\ (section = "AUTHENTICATION" \/ section = "LOCATIONS")
                 /\ cp_has_section cp section = true
                 /\ cp_has_option cp section k = false)
           \/ (exists section k,
                 cp_has_option cp section k = true
                 /\ cp_get cp section k = Raise e)
           \/ (e = ValueError
               /\ exists v entry,
                    cp_get cp "AUTHENTICATION" "allowed_ids" = Ok v
                    /\ In entry (Py.split "," v)
                    /\ Py.int_limited (int_max_str_digits rt) entry = None)).
Proof.
  rewrite read_config_unfold.
  destruct (cp_read rt filename) as [cp|e0]; cbn [rbind];
    [|intros H; injection H as <-; now left].
  intros H. right. exists cp. split; [reflexivity|].
  assert (forall section k,
            (section = "AUTHENTICATION" \/ section = "LOCATIONS") ->
            cp_has_section cp section = true ->
            option_getitem cp section k = Raise e ->
            (exists section k,
               e = KeyError k
               /\ (section = "AUTHENTICATION" \/ section = "LOCATIONS")
               /\ cp_has_section cp section = true
               /\ cp_has_option cp section k = false)
            \/ (exists section k,
                  cp_has_option cp section k = true
                  /\ cp_get cp section k = Raise e)) as Hopt.
  { intros section k Hs Hsec Hg.
    destruct (option_getitem_raise cp section k e Hg) as [[-> Hn] | [Hy Hr]].
    - left. exists section, k. auto.
    - right. exists section, k. auto. }
  destruct (cp_has_section cp "AUTHENTICATION") eqn:HA.
  2:{ injection H as <-. left. exists "AUTHENTICATION". auto. }
  destruct (option_getitem cp "AUTHENTICATION" "token") as [tk|e1] eqn:Ht;
    cbn [rbind] in H.
  2:{ injection H as <-. right.
      destruct (Hopt "AUTHENTICATION" "token" (or_introl eq_refl) HA Ht);
        auto. }
  destruct (option_getitem cp "AUTHENTICATION" "allowed_ids")
    as [v|e1] eqn:Hi; cbn [rbind] in H.
  2:{ injection H as <-. right.
      destruct (Hopt "AUTHENTICATION" "allowed_ids" (or_introl eq_refl)
                  HA Hi); auto. }
  pose proof (comprehension_outcome_limited (int_max_str_digits rt)
                (Py.split "," v)) as Hc.
  destruct (Py.comprehension _ _) as [l|e1]; cbn [rbind] in H.
  2:{ injection H as <-. destruct Hc as (-> & x & Hx & Hf).
      right. right. right. split; [reflexivity|].
      exists v, x. apply option_getitem_ok in Hi. tauto. }
  destruct (cp_has_section cp "LOCATIONS") eqn:HL.
  2:{ injection H as <-. left. exists "LOCATIONS". auto. }
  destruct (option_getitem cp "LOCATIONS" "workplace") as [wp|e1] eqn:Hw;
    cbn [rbind] in H.
  2:{ injection H as <-. right.
      destruct (Hopt "LOCATIONS" "workplace" (or_intror eq_refl) HL Hw);
        auto. }
  destruct (option_getitem cp "LOCATIONS" "direction_workplace")
    as [dw|e1] eqn:Hdw; cbn [rbind] in H.
  2:{ injection H as <-. right.
      destruct (Hopt "LOCATIONS" "direction_workplace" (or_intror eq_refl)
                  HL Hdw); auto. }
  destruct (option_getitem cp "LOCATIONS" "home") as [hm|e1] eqn:Hh;
    cbn [rbind] in H.
  2:{ injection H as <-. right.
      destruct (Hopt "LOCATIONS" "home" (or_intror eq_refl) HL Hh); auto. }
  destruct (option_getitem cp "LOCATIONS" "direction_home")
    as [dh|e1] eqn:Hdh; cbn [rbind] in H.
  2:{ injection H as <-. right.
      destruct (Hopt "LOCATIONS" "direction_home" (or_intror eq_refl)
                  HL Hdh); auto. }
  discriminate H.
Qed.

Lemma read_config_bad_entry rt filename cp v entry :
  cp_read rt filename = Ok cp ->
  cp_get cp "AUTHENTICATION" "allowed_ids" = Ok v ->
  In entry (Py.split "," v) ->
  Py.int_limited (int_max_str_digits rt) entry = None ->
  is_ok (read_config rt filename) = false
  /\ (cp_has_section cp "AUTHENTICATION" = true ->
      cp_has_option cp "AUTHENTICATION" "token" = true ->
      is_ok (cp_get cp "AUTHENTICATION" "token") = true ->
      cp_has_option cp "AUTHENTICATION" "allowed_ids" = true ->
      read_config rt filename = Raise ValueError).
Proof.
  intros Hr Hg Hin Hf. rewrite read_config_unfold, Hr. cbn [rbind].
  assert (Py.comprehension (Py.int_limited (int_max_str_digits rt))
            (Py.split "," v) = Raise ValueError) as Hc
    by (now apply comprehension_fails with entry).
  split.
  - destruct (cp_has_section cp "AUTHENTICATION"); [|reflexivity].
    destruct (option_getitem cp "AUTHENTICATION" "token"); cbn [rbind];
      [|reflexivity].
    unfold option_getitem.
    destruct (cp_has_option cp "AUTHENTICATION" "allowed_ids");
      [|reflexivity].
    rewrite Hg. cbn [rbind]. now rewrite Hc.
  - intros HA Ht Hgt Hi. rewrite HA. unfold option_getitem. rewrite Ht, Hi.
    destruct (cp_get cp "AUTHENTICATION" "token"); [|discriminate].
    cbn [rbind]. rewrite Hg. cbn [rbind]. now rewrite Hc.
Qed.

(** A file without a section header, and a token with a stray percent
    sign: the loader fails with the exception of [configparser], which
    names no missing section or key and comes from no entry of the
    allow-list. *)
Lemma loader_fails_without_naming :
  read_config headerless_runtime "havag.ini"
  = Raise (ConfigparserError "MissingSectionHeaderError")
  /\ read_config stray_percent_runtime "havag.ini"
     = Raise (ConfigparserError "InterpolationSyntaxError")
  /\ ~ loader_names_every_failure.
Proof.
  split; [reflexivity|]. split; [reflexivity|].
  intros H.
  destruct (H headerless_runtime "havag.ini"
              (ConfigparserError "MissingSectionHeaderError") eq_refl)
    as [[k Hk] | (cp & v & entry & Hr & _)]; discriminate.
Qed.

(** C8, as the code has it. For every file name the loader either
    returns a configuration, all of whose sections and options the
    parser had, or raises, and then in one of four ways: the exception
    of [configparser] from reading the file; a [KeyError] that names the
    section or the option that is missing; the exception of
    [configparser] from retrieving an option that is there; or the
    [ValueError] of [int] on an entry of [allowed_ids] that is no integer
    literal (or is longer than the interpreter converts).  With such an
    entry in the allow-list the loader never returns, and raises that
    [ValueError] whenever the token before it can be retrieved. *)
Theorem read_config_returns_or_names_failure
    (rt : runtime) (filename : string) :
  match read_config rt filename with
  | Ok cfg =>
      exists cp,
        cp_read rt filename = Ok cp
        /\ cp_has_section cp "AUTHENTICATION" = true
        /\ cp_has_section cp "LOCATIONS" = true
        /\ cp_has_option cp "AUTHENTICATION" "token" = true
        /\ cp_has_option cp "AUTHENTICATION" "allowed_ids" = true
        /\ cp_has_option cp "LOCATIONS" "workplace" = true
        /\ cp_has_option cp "LOCATIONS" "direction_workplace" = true
        /\ cp_has_option cp "LOCATIONS" "home" = true
        /\ cp_has_option cp "LOCATIONS" "direction_home" = true
        /\ cp_get cp "AUTHENTICATION" "token" = Ok (Config.token cfg)
        /\ cp_get cp "LOCATIONS" "workplace" = Ok (Config.workplace cfg)
        /\ cp_get cp "LOCATIONS" "home" = Ok (Config.home cfg)
  | Raise e =>
      cp_read rt filename = Raise e
      \/ exists cp,
           cp_read rt filename = Ok cp
           /\ ((exists k,
                  e = KeyError k
                  /\ (k = "AUTHENTICATION" \/ k = "LOCATIONS")
                  /\ cp_has_section cp k = false)
               \/ (exists section k,
                     e = KeyError k
                     /\ (section = "AUTHENTICATION" \/ section = "LOCATIONS")
                     /\ cp_has_section cp section = true
                     /\ cp_has_option cp section k = false)
               \/ (exists section k,
                     cp_has_option cp section k = true
                     /\ cp_get cp section k = Raise e)
               \/ (e = ValueError
                   /\ exists v entry,
                        cp_get cp "AUTHENTICATION" "allowed_ids" = Ok v
                        /\ In entry (Py.split "," v)
                        /\ Py.int_limited (int_max_str_digits rt) entry
                           = None))
  end
  /\ (forall cp v entry,
        cp_read rt filename = Ok cp ->
        cp_get cp "AUTHENTICATION" "allowed_ids" = Ok v ->
        In entry (Py.split "," v) ->
        Py.int_limited (int_max_str_digits rt) entry = None ->
        is_ok (read_config rt filename) = false
        /\ (cp_has_section cp "AUTHENTICATION" = true ->
            cp_has_option cp "AUTHENTICATION" "token" = true ->
            is_ok (cp_get cp "AUTHENTICATION" "token") = true ->
            cp_has_option cp "AUTHENTICATION" "allowed_ids" = true ->
            read_config rt filename = Raise ValueError)).
Proof.
  split; [|apply read_config_bad_entry].
  destruct (read_config rt filename) as [cfg|e] eqn:H.
  - destruct (read_config_inv rt filename cfg H)
      as (cp & v & dw & dh & Hr & HA & HL & Ht & Hi & _ & Hw & Hdw & Hh
          & Hdh & _).
    apply option_getitem_ok in Ht, Hi, Hw, Hdw, Hh, Hdh.
    exists cp. tauto.
  - now apply read_config_failure.
Qed.

Lemma read_config_returns_or_names_failure_witness :
  is_ok (read_config (runtime_of (config_with_ids "111,abc")) "havag.ini")
  = false
  /\ read_config (runtime_of (config_with_ids "111,abc")) "havag.ini"
     = Raise ValueError.
Proof.
  destruct (proj2 (read_config_returns_or_names_failure
                     (runtime_of (config_with_ids "111,abc")) "havag.ini")
              (parser_of (config_with_ids "111,abc")) "111,abc" "abc")
    as [H1 H2].
  - reflexivity.
  - reflexivity.
  - right. left. reflexivity.
  - reflexivity.
  - split; [exact H1|]. apply H2; reflexivity.
Defined.

(** The value "A, B,A" is loaded as the list ["A"; " B"; "A"]: the blank
    before B stays, and A is there twice.  An empty list of destinations,
    written out, is loaded as the list of one empty name. *)
Lemma destinations_not_trimmed_sets :
  (exists cfg,
     read_config (runtime_of (config_with_ids "111")) "havag.ini" = Ok cfg
     /\ Config.direction_workplace cfg = ["A"; " B"; "A"])
  /\ Py.strip " B" <> " B"
  /\ ~ List.NoDup ["A"; " B"; "A"]
  /\ rmap Config.direction_home
       (read_config (runtime_of (file_of no_destination)) "havag.ini")
     = Ok [""]
  /\ ~ destinations_are_trimmed_sets.
Proof.
  assert (Py.strip " B" <> " B") as Hs by (vm_compute; discriminate).
  split; [eexists; split; reflexivity|].
  split; [exact Hs|]. split; [|split; [reflexivity|]].
  - intros H. inversion H as [|? ? Hn _]; subst. apply Hn.
    right. left. reflexivity.
  - intros H.
    destruct (H (runtime_of (config_with_ids "111")) "havag.ini" _ eq_refl)
      as [_ [Ht _]].
    inversion Ht as [|? ? _ Ht']; subst.
    inversion Ht' as [|? ? Hb _]; subst. exact (Hs Hb).
Qed.

Lemma int_limited_str limit (n : Z) :
  Py.exceeds_limit limit (Py.str n) = false ->
  Py.int_limited limit (Py.str n) = Some n.
Proof. intros H. unfold Py.int_limited. rewrite H. apply int_str. Qed.

Lemma comprehension_int_limited_str limit (l : list Z) :
  Forall (fun n => Py.exceeds_limit limit (Py.str n) = false) l ->
  Py.comprehension (Py.int_limited limit) (map Py.str l) = Ok l.
Proof.
  induction 1 as [|n l Hn _ IH]; [reflexivity|].
  cbn. rewrite (int_limited_str limit n Hn), IH. reflexivity.
Qed.

Lemma read_config_hands_back rt filename cp (c : config) :
  cp_read rt filename = Ok cp ->
  hands_back cp c ->
  Config.ids c <> [] ->
  Config.direction_home c <> [] ->
  Config.direction_workplace c <> [] ->
  Forall comma_free (Config.direction_home c) ->
  Forall comma_free (Config.direction_workplace c) ->
  Forall (fun n => Py.exceeds_limit (int_max_str_digits rt) (Py.str n)
                   = false) (Config.ids c) ->
  read_config rt filename = Ok c.
Proof.
  intros Hr (HA & HL & H1 & H2 & H3 & H4 & H5 & H6
             & G1 & G2 & G3 & G4 & G5 & G6) Hi Hh Hw Fh Fw Fl.
  destruct c as [tk hm dh wp dw l]. cbn in *.
  rewrite read_config_unfold, Hr. cbn [rbind]. rewrite HA, HL.
  rewrite (option_getitem_there _ _ _ _ H1 G1). cbn [rbind].
  rewrite (option_getitem_there _ _ _ _ H2 G2). cbn [rbind].
  assert (Py.split "," (Py.join "," (map Py.str l)) = map Py.str l) as ->.
  { apply (split_join ","%char).
    - destruct l; [contradiction | discriminate].
    - apply Forall_map. apply List.Forall_forall. intros n _.
      apply str_without_comma. }
  rewrite (comprehension_int_limited_str _ l Fl). cbn [rbind].
  rewrite (option_getitem_there _ _ _ _ H3 G3). cbn [rbind].
  rewrite (option_getitem_there _ _ _ _ H4 G4). cbn [rbind].
  rewrite (option_getitem_there _ _ _ _ H5 G5). cbn [rbind].
  rewrite (option_getitem_there _ _ _ _ H6 G6). cbn [rbind].
  rewrite (split_join ","%char dh Hh Fh), (split_join ","%char dw Hw Fw).
  reflexivity.
Qed.

(** C7, as the code has it. Each destination list is the value that the
    parser hands over for its option, cut at the commas and nothing
    more: a list that keeps the order, the repetitions and the blanks
    of the pieces, so that joining it with commas gives that value
    back.  Loading reproduces known values whenever the parser hands
    their written form over unchanged, the lists are not empty, no
    destination name contains a comma and no id is longer than the
    interpreter converts. *)
Theorem read_config_splits_destinations :
  (forall rt filename cfg,
     read_config rt filename = Ok cfg ->
     exists cp raw_home raw_work,
       cp_read rt filename = Ok cp
       /\ cp_get cp "LOCATIONS" "direction_home" = Ok raw_home
       /\ cp_get cp "LOCATIONS" "direction_workplace" = Ok raw_work
       /\ Config.direction_home cfg = Py.split "," raw_home
       /\ Config.direction_workplace cfg = Py.split "," raw_work
       /\ Py.join "," (Config.direction_home cfg) = raw_home
       /\ Py.join "," (Config.direction_workplace cfg) = raw_work)
  /\ (forall rt filename cp c,
        cp_read rt filename = Ok cp ->
        hands_back cp c ->
        Config.ids c <> [] ->
        Config.direction_home c <> [] ->
        Config.direction_workplace c <> [] ->
        Forall comma_free (Config.direction_home c) ->
        Forall comma_free (Config.direction_workplace c) ->
        Forall (fun n => Py.exceeds_limit (int_max_str_digits rt) (Py.str n)
                         = false) (Config.ids c) ->
        read_config rt filename = Ok c).
Proof.
  split; [|exact read_config_hands_back].
  intros rt filename cfg H.
  destruct (read_config_inv rt filename cfg H)
    as (cp & v & dw & dh & Hr & _ & _ & _ & _ & _ & _ & Hdw & _ & Hdh
        & Ew & Eh).
  apply option_getitem_ok in Hdw, Hdh.
  exists cp, dh, dw. rewrite Ew, Eh.
  repeat split; try tauto; apply (join_split ","%char).
Qed.

Lemma known_values_handed_back :
  hands_back (parser_of (file_of known_values)) known_values.
Proof. repeat split. Qed.

Lemma read_config_splits_destinations_witness :
  (exists cp raw_home raw_work,
     cp_read (runtime_of (config_with_ids "111")) "havag.ini" = Ok cp
     /\ cp_get cp "LOCATIONS" "direction_home" = Ok raw_home
     /\ cp_get cp "LOCATIONS" "direction_workplace" = Ok raw_work
     /\ ["Schkeuditz"] = Py.split "," raw_home
     /\ ["A"; " B"; "A"] = Py.split "," raw_work
     /\ Py.join "," ["Schkeuditz"] = raw_home
     /\ Py.join "," ["A"; " B"; "A"] = raw_work)
  /\ read_config (runtime_of (file_of known_values)) "havag.ini"
     = Ok known_values.
Proof.
  split.
  - apply (proj1 read_config_splits_destinations
             (runtime_of (config_with_ids "111")) "havag.ini"
             {| Config.token := "123:abc";
                Config.home := "Markt";
                Config.direction_home := ["Schkeuditz"];
                Config.workplace := "Hauptbahnhof";
                Config.direction_workplace := ["A"; " B"; "A"];
                Config.ids := [111] |}).
    reflexivity.
  - apply (proj2 read_config_splits_destinations
             (runtime_of (file_of known_values)) "havag.ini"
             (parser_of (file_of known_values)) known_values).
    + reflexivity.
    + exact known_values_handed_back.
    + discriminate.
    + discriminate.
    + discriminate.
    + repeat constructor.
    + repeat constructor.
    + repeat constructor.
Defined.

(** * Further properties of the code *)

(** ** The list of connections *)

Lemma loop_retained n direction deps ts :
  List.Forall2 (fun d t => Datetime.strptime (dep_time d) = Ok t) deps ts ->
  forall acc,
    get_connections_loop n direction deps acc
    = Ok (acc ++ retained n direction (combine deps ts)).
Proof.
  induction 1 as [|d t deps ts Hd _ IH]; intros acc.
  - cbn. now rewrite app_nil_r.
  - destruct d as [tr de ti re]. cbn in Hd. cbn [get_connections_loop].
    rewrite Hd. cbn [rbind combine]. unfold retained in *.
    cbn [List.filter fst snd dep_destination].
    destruct (in_direction de direction).
    + change (get_connections_loop n direction deps
                (acc ++ [conn_of n (Departure tr de ti re) t])
              = Ok (acc ++ conn_of n (Departure tr de ti re) t
                          :: map (fun p => conn_of n (fst p) (snd p))
                               (List.filter
                                  (fun p => in_direction
                                              (dep_destination (fst p))
                                              direction)
                                  (combine deps ts)))).
      rewrite IH, <- app_assoc. reflexivity.
    + apply IH.
Qed.

(** X1. When every timestamp is in the format of the service, the list
    of [get_connections] is exactly the departures bound for the
    direction, one connection for each, in the order of the service
    (repetitions kept). *)
Theorem get_connections_keeps_order
    (env : environment) (start : string) (direction : list string)
    (deps : list departure) (ts : list Datetime.datetime) :
  getDeparturesForStop env start = Ok deps ->
  List.Forall2 (fun d t => Datetime.strptime (dep_time d) = Ok t) deps ts ->
  get_connections env start direction
  = Ok (retained (now env) direction (combine deps ts)).
Proof.
  intros Hd Hp. unfold get_connections. rewrite Hd. cbn [rbind].
  apply (loop_retained (now env) direction deps ts Hp []).
Qed.

Lemma get_connections_keeps_order_witness :
  get_connections scenario_env "Hauptbahnhof" ["Leipzig"; "Schkeuditz"]
  = Ok (retained (now scenario_env) ["Leipzig"; "Schkeuditz"]
          (combine scenario_departures
             [Datetime.DT 2024 1 1 10 5 0 0; Datetime.DT 2024 1 1 10 2 0 0])).
Proof.
  apply (get_connections_keeps_order scenario_env "Hauptbahnhof"
           ["Leipzig"; "Schkeuditz"] scenario_departures
           [Datetime.DT 2024 1 1 10 5 0 0; Datetime.DT 2024 1 1 10 2 0 0]).
  - reflexivity.
  - repeat constructor.
Defined.

(** ** The first minimum *)

Lemma lex_ltb_true (a b : Z * Z) : lex_ltb a b = true <-> lex_lt a b.
Proof. unfold lex_ltb, lex_lt. lia. Qed.

Lemma lex_ltb_false (a b : Z * Z) : lex_ltb a b = false <-> lex_le b a.
Proof. unfold lex_ltb, lex_le. lia. Qed.

Lemma value_lt_key (x y : connection) :
  pair_delta x -> pair_delta y ->
  value_lt (delta x) (delta y) = Ok (lex_ltb (key x) (key y)).
Proof.
  intros (a & b & Hx) (a' & b' & Hy). unfold key. rewrite Hx, Hy.
  reflexivity.
Qed.

Lemma min_loop_first items :
  forall pre best mid,
    Forall pair_delta (best :: items) ->
    (forall x, In x pre -> lex_lt (key best) (key x)) ->
    (forall x, In x mid -> lex_le (key best) (key x)) ->
    exists pre' c post,
      pre ++ best :: mid ++ items = pre' ++ c :: post
      /\ min_loop best items = Ok c
      /\ (forall x, In x pre' -> lex_lt (key c) (key x))
      /\ (forall x, In x post -> lex_le (key c) (key x)).
Proof.
  induction items as [|y items IH]; intros pre best mid HF Hpre Hmid.
  - exists pre, best, mid. rewrite app_nil_r. auto.
  - inversion HF as [|? ? Hb HF']; subst.
    inversion HF' as [|? ? Hy HF'']; subst.
    cbn [min_loop]. rewrite (value_lt_key y best Hy Hb). cbn [rbind].
    destruct (lex_ltb (key y) (key best)) eqn:E.
    + apply lex_ltb_true in E.
      destruct (IH (pre ++ best :: mid) y [] HF')
        as (pre' & c & post & Heq & Hc & H1 & H2).
      * intros x Hx. apply in_app_or in Hx.
        destruct Hx as [Hx | [<- | Hx]].
        -- specialize (Hpre x Hx). unfold lex_lt in *. lia.
        -- exact E.
        -- specialize (Hmid x Hx). unfold lex_lt, lex_le in *. lia.
      * intros x [].
      * exists pre', c, post. split; [|auto].
        rewrite <- Heq. cbn. rewrite <- app_assoc. reflexivity.
    + apply lex_ltb_false in E.
      destruct (IH pre best (mid ++ [y]))
        as (pre' & c & post & Heq & Hc & H1 & H2).
      * constructor; assumption.
      * exact Hpre.
      * intros x Hx. apply in_app_or in Hx.
        destruct Hx as [Hx | [<- | []]]; [now apply Hmid | exact E].
      * exists pre', c, post. split; [|auto].
        rewrite <- Heq. rewrite <- app_assoc. reflexivity.
Qed.

(** X2. On a non-empty list of connections that still carry their pair,
    [get_next_connection] returns the first of the smallest: every
    connection before the result has a strictly greater delta, every one
    after it a delta at least as great. *)
Theorem get_next_connection_first_minimum (cs : list connection) :
  cs <> [] ->
  Forall pair_delta cs ->
  exists pre c post,
    cs = pre ++ c :: post
    /\ get_next_connection cs = Ok c
    /\ (forall x, In x pre -> lex_lt (key c) (key x))
    /\ (forall x, In x post -> lex_le (key c) (key x)).
Proof.
  intros Hne HF. destruct cs as [|x items]; [contradiction|].
  destruct (min_loop_first items [] x [] HF)
    as (pre & c & post & Heq & Hc & H1 & H2).
  - intros y [].
  - intros y [].
  - exists pre, c, post. auto.
Qed.

Lemma get_next_connection_first_minimum_witness :
  exists pre c post,
    [Connection "3" "A" "10:05" (VPair 5 0);
     Connection "7" "B" "10:02" (VPair 2 0);
     Connection "9" "C" "10:02" (VPair 2 0)]
    = pre ++ c :: post
    /\ get_next_connection
         [Connection "3" "A" "10:05" (VPair 5 0);
          Connection "7" "B" "10:02" (VPair 2 0);
          Connection "9" "C" "10:02" (VPair 2 0)] = Ok c
    /\ (forall x, In x pre -> lex_lt (key c) (key x))
    /\ (forall x, In x post -> lex_le (key c) (key x)).
Proof.
  apply get_next_connection_first_minimum.
  - discriminate.
  - repeat constructor; red; cbn; eauto.
Defined.

(** ** Failures of [get_connections] *)

Lemma new_raises y m d hh mm ss us e :
  Datetime.new y m d hh mm ss us = Raise e -> e = ValueError.
Proof.
  unfold Datetime.new. intros H.
  match type of H with (if ?b then _ else _) = _ => destruct b end;
    [discriminate | now injection H].
Qed.

Lemma strptime_raises (s : string) (e : exn) :
  Datetime.strptime s = Raise e -> e = ValueError.
Proof.
  unfold Datetime.strptime. intros H.
  repeat case_match; try discriminate;
    try (now injection H); eapply new_raises; exact H.
Qed.

Lemma loop_malformed n direction deps d :
  In d deps ->
  is_ok (Datetime.strptime (dep_time d)) = false ->
  forall acc, get_connections_loop n direction deps acc = Raise ValueError.
Proof.
  induction deps as [|d0 deps IH]; intros Hin Hbad acc; [destruct Hin|].
  destruct d0 as [tr de ti re]. cbn [get_connections_loop].
  destruct (Datetime.strptime ti) as [t|e] eqn:Ht; cbn [rbind].
  - destruct Hin as [<- | Hin].
    + cbn in Hbad. rewrite Ht in Hbad. discriminate.
    + destruct (in_direction de direction); now apply IH.
  - now rewrite (strptime_raises ti e Ht).
Qed.

Lemma get_connections_malformed env start direction deps d :
  getDeparturesForStop env start = Ok deps ->
  In d deps ->
  is_ok (Datetime.strptime (dep_time d)) = false ->
  get_connections env start direction = Raise ValueError.
Proof.
  intros Hd Hin Hbad. unfold get_connections. rewrite Hd. cbn [rbind].
  now apply loop_malformed with d.
Qed.

(** X3. One timestamp that is not in the format of the service, on any
    departure of the answer, bound for the direction or not, makes
    [get_connections] raise [ValueError]: no connection is returned, not
    even for the well-formed departures. *)
Theorem get_connections_malformed_timestamp
    (env : environment) (start : string) (direction : list string)
    (deps : list departure) (d : departure) :
  getDeparturesForStop env start = Ok deps ->
  In d deps ->
  is_ok (Datetime.strptime (dep_time d)) = false ->
  get_connections env start direction = Raise ValueError.
Proof. apply get_connections_malformed. Qed.

Lemma get_connections_malformed_timestamp_witness :
  get_connections broken_env "Hauptbahnhof" ["Schkeuditz"]
  = Raise ValueError.
Proof.
  apply (get_connections_malformed_timestamp broken_env "Hauptbahnhof"
           ["Schkeuditz"] broken_departures
           (Departure "7" "Leipzig" "2024.02.30.10:02:00" [])).
  - reflexivity.
  - right. left. reflexivity.
  - reflexivity.
Defined.

Lemma reply_next_raises env stop direction (u : update) (w : world) e :
  get_connections env stop direction = Raise e ->
  reply_next env stop direction u w = (Raise e, w).
Proof. intros H. unfold reply_next, bind, lift. now rewrite H. Qed.

(** X4. The handlers catch the [ValueError] of the selection only: when
    the remote call raises, or a timestamp of its answer is malformed,
    [home] and [work] raise that exception for an allowed requester,
    send no reply (not even "Keine Verbindung gefunden.") and leave the
    log as it is. *)
Theorem handlers_propagate_fetch_failures
    (env : environment) (s : self) (u : update) (w : world) :
  allowed s u ->
  ((forall e,
      getDeparturesForStop env (workplace s) = Raise e ->
      home env s u w = (Raise e, w))
   /\ (forall deps d,
         getDeparturesForStop env (workplace s) = Ok deps ->
         In d deps -> is_ok (Datetime.strptime (dep_time d)) = false ->
         home env s u w = (Raise ValueError, w)))
  /\ ((forall e,
         getDeparturesForStop env (home_address s) = Raise e ->
         work env s u w = (Raise e, w))
      /\ (forall deps d,
            getDeparturesForStop env (home_address s) = Ok deps ->
            In d deps -> is_ok (Datetime.strptime (dep_time d)) = false ->
            work env s u w = (Raise ValueError, w))).
Proof.
  intros Ha. unfold home, work. rewrite !(check_id_allowed _ _ _ _ Ha).
  unfold home_body, work_body.
  repeat split.
  - intros e He. apply reply_next_raises. unfold get_connections.
    now rewrite He.
  - intros deps d Hd Hin Hbad. apply reply_next_raises.
    now apply get_connections_malformed with deps d.
  - intros e He. apply reply_next_raises. unfold get_connections.
    now rewrite He.
  - intros deps d Hd Hin Hbad. apply reply_next_raises.
    now apply get_connections_malformed with deps d.
Qed.

Lemma handlers_propagate_fetch_failures_witness :
  home scenario_env
    (HavagBot.init "Markt" ["Schkeuditz"] "Nirgendwo" [] (Some [111]))
    (scenario_update 111) empty_world
  = (Raise RemoteError, empty_world)
  /\ work broken_env (scenario_bot ["Dresden"]) (scenario_update 111)
       empty_world
     = (Raise ValueError, empty_world).
Proof.
  assert (allowed (HavagBot.init "Markt" ["Schkeuditz"] "Nirgendwo" []
                     (Some [111])) (scenario_update 111)) as A.
  { exists [111]. repeat split; [discriminate | now left]. }
  split.
  - apply (proj1 (proj1 (handlers_propagate_fetch_failures scenario_env
             (HavagBot.init "Markt" ["Schkeuditz"] "Nirgendwo" []
                (Some [111]))
             (scenario_update 111) empty_world A))).
    reflexivity.
  - apply (proj2 (proj2 (handlers_propagate_fetch_failures broken_env
             (scenario_bot ["Dresden"]) (scenario_update 111) empty_world
             scenario_allowed))
             broken_departures
             (Departure "7" "Leipzig" "2024.02.30.10:02:00" [])).
    + reflexivity.
    + right. left. reflexivity.
    + reflexivity.
Defined.

(** ** The reply of [home] and [work] *)

Lemma select_spec env start direction deps :
  getDeparturesForStop env start = Ok deps ->
  Forall parses deps ->
  Exists (fun d => In (dep_destination d) direction) deps ->
  exists cs d t,
    get_connections env start direction = Ok cs
    /\ get_next_connection cs = Ok (conn_of (now env) d t)
    /\ In d deps /\ In (dep_destination d) direction
    /\ Datetime.strptime (dep_time d) = Ok t
    /\ forall d' t',
         In d' deps -> In (dep_destination d') direction ->
         Datetime.strptime (dep_time d') = Ok t' ->
         lex_le (delta_of (now env) t) (delta_of (now env) t').
Proof.
  intros Hd Hp Hex.
  destruct (get_connections_total env start direction deps Hd Hp) as [cs Hcs].
  pose proof (get_connections_built env start direction deps cs Hd Hcs) as Hb.
  apply List.Exists_exists in Hex. destruct Hex as (d0 & Hd0 & Hm0).
  rewrite List.Forall_forall in Hp.
  destruct (parses_inv d0 (Hp d0 Hd0)) as [t0 Ht0].
  assert (In (conn_of (now env) d0 t0) cs) as Hin0.
  { apply Hb. exists d0, t0. repeat split; auto. now apply in_direction_In. }
  destruct cs as [|x items]; [destruct Hin0|].
  assert (Forall pair_delta (x :: items)) as Hpair.
  { apply List.Forall_forall. intros c Hc. apply Hb in Hc.
    eapply built_from_pair; exact Hc. }
  destruct (min_loop_spec items x Hpair) as (c & Hc & Hin & Hmin).
  pose proof (proj1 (Hb c) Hin) as (d & t & Hdin & Ht & Hm & Hceq).
  exists (x :: items), d, t. subst c.
  split; [exact Hcs|]. split; [exact Hc|]. split; [exact Hdin|].
  split; [now apply in_direction_In|]. split; [exact Ht|].
  intros d' t' Hd' Hm' Ht'.
  assert (In (conn_of (now env) d' t') (x :: items)) as Hin'.
  { apply Hb. exists d', t'. repeat split; auto. now apply in_direction_In. }
  specialize (Hmin _ Hin'). unfold key_le in Hmin. cbn in Hmin. exact Hmin.
Qed.

Lemma reply_next_selected env stop direction (u : update) (w : world)
    cs d t :
  get_connections env stop direction = Ok cs ->
  get_next_connection cs = Ok (conn_of (now env) d t) ->
  reply_next env stop direction u w
  = (Ok tt, replied u (reply_text (now env) d t) w).
Proof.
  intros Hcs Hc. unfold reply_next, bind, lift. rewrite Hcs, Hc.
  unfold return_connection_str, conn_of, reply_text, replied.
  generalize (delta_of (now env) t). intros p. cbn.
  destruct (fst p <? 1); reflexivity.
Qed.

Lemma reply_next_next env stop direction (u : update) (w : world) deps :
  getDeparturesForStop env stop = Ok deps ->
  Forall parses deps ->
  Exists (fun d => In (dep_destination d) direction) deps ->
  exists d t,
    In d deps /\ In (dep_destination d) direction
    /\ Datetime.strptime (dep_time d) = Ok t
    /\ (forall d' t',
          In d' deps -> In (dep_destination d') direction ->
          Datetime.strptime (dep_time d') = Ok t' ->
          lex_le (delta_of (now env) t) (delta_of (now env) t'))
    /\ reply_next env stop direction u w
       = (Ok tt, replied u (reply_text (now env) d t) w).
Proof.
  intros Hd Hp Hex.
  destruct (select_spec env stop direction deps Hd Hp Hex)
    as (cs & d & t & Hcs & Hc & Hin & Hm & Ht & Hmin).
  exists d, t. repeat split; auto.
  now apply reply_next_selected with cs.
Qed.

(** X5. When the remote call answers with well-formed departures of
    which at least one is bound for the direction, [home] (from the
    workplace stop towards [direction_home]) and [work] (from the home
    stop towards [direction_workplace]) succeed for an allowed requester
    and send exactly one message to the requesting chat: the line
    "tram -> destination @ HH:MM (N Min.)" of a retained departure with
    the least delta, the log staying as it is. *)
Theorem handlers_reply_with_next_connection
    (env : environment) (s : self) (u : update) (w : world)
    (deps : list departure) :
  allowed s u ->
  Forall parses deps ->
  (getDeparturesForStop env (workplace s) = Ok deps ->
   Exists (fun d => In (dep_destination d) (direction_home s)) deps ->
   exists d t,
     In d deps /\ In (dep_destination d) (direction_home s)
     /\ Datetime.strptime (dep_time d) = Ok t
     /\ (forall d' t',
           In d' deps -> In (dep_destination d') (direction_home s) ->
           Datetime.strptime (dep_time d') = Ok t' ->
           lex_le (delta_of (now env) t) (delta_of (now env) t'))
     /\ home env s u w
        = (Ok tt,
           {| sent := sent w ++ [(chat_id (upd_message u),
                                  reply_text (now env) d t)];
              log := log w |}))
  /\ (getDeparturesForStop env (home_address s) = Ok deps ->
      Exists (fun d => In (dep_destination d) (direction_workplace s)) deps ->
      exists d t,
        In d deps /\ In (dep_destination d) (direction_workplace s)
        /\ Datetime.strptime (dep_time d) = Ok t
        /\ (forall d' t',
              In d' deps -> In (dep_destination d') (direction_workplace s) ->
              Datetime.strptime (dep_time d') = Ok t' ->
              lex_le (delta_of (now env) t) (delta_of (now env) t'))
        /\ work env s u w
           = (Ok tt,
              {| sent := sent w ++ [(chat_id (upd_message u),
                                     reply_text (now env) d t)];
                 log := log w |})).
Proof.
  intros Ha Hp. unfold home, work. rewrite !(check_id_allowed _ _ _ _ Ha).
  split; intros Hd Hex.
  - exact (reply_next_next env (workplace s) (direction_home s) u w deps
             Hd Hp Hex).
  - exact (reply_next_next env (home_address s) (direction_workplace s)
             u w deps Hd Hp Hex).
Qed.

Lemma handlers_reply_with_next_connection_witness :
  exists d t,
    In d scenario_departures
    /\ In (dep_destination d) ["Leipzig"; "Schkeuditz"]
    /\ Datetime.strptime (dep_time d) = Ok t
    /\ (forall d' t',
          In d' scenario_departures ->
          In (dep_destination d') ["Leipzig"; "Schkeuditz"] ->
          Datetime.strptime (dep_time d') = Ok t' ->
          lex_le (delta_of (now scenario_env) t)
                 (delta_of (now scenario_env) t'))
    /\ work scenario_env (scenario_bot ["Leipzig"; "Schkeuditz"])
          (scenario_update 111) empty_world
       = (Ok tt,
          {| sent := sent empty_world
                     ++ [(chat_id (upd_message (scenario_update 111)),
                          reply_text (now scenario_env) d t)];
             log := log empty_world |}).
Proof.
  assert (allowed (scenario_bot ["Leipzig"; "Schkeuditz"])
            (scenario_update 111)) as A.
  { exists [111]. repeat split; [discriminate | now left]. }
  apply (proj2 (handlers_reply_with_next_connection scenario_env
                  (scenario_bot ["Leipzig"; "Schkeuditz"])
                  (scenario_update 111) empty_world scenario_departures
                  A scenario_parses)).
  - reflexivity.
  - apply Exists_cons_hd. right. left. reflexivity.
Defined.

(** ** What a request can do *)




(** ** The soonest departure *)

Lemma lex_le_seconds (a b : Z) :
  lex_le (a / 60, a mod 60) (b / 60, b mod 60) -> a <= b.
Proof.
  unfold lex_le. cbn [fst snd]. intros H.
  pose proof (Z.div_mod a 60 ltac:(lia)).
  pose proof (Z.div_mod b 60 ltac:(lia)).
  pose proof (Z.mod_pos_bound a 60 ltac:(lia)).
  pose proof (Z.mod_pos_bound b 60 ltac:(lia)).
  lia.
Qed.

(** X7. When every departure bound for the direction is scheduled
    within the coming 24 hours, the selected connection is the soonest of
    them, to the whole second: no retained departure is scheduled a full
    second or more before it. *)
Theorem selector_returns_soonest_within_a_day
    (env : environment) (start : string) (direction : list string)
    (deps : list departure) :
  getDeparturesForStop env start = Ok deps ->
  Forall parses deps ->
  Exists (fun d => In (dep_destination d) direction) deps ->
  (forall d t,
     In d deps -> In (dep_destination d) direction ->
     Datetime.strptime (dep_time d) = Ok t ->
     0 <= instant t - instant (now env) < 86400 * 1000000) ->
  exists d t,
    (let! cs := get_connections env start direction in
     get_next_connection cs) = Ok (conn_of (now env) d t)
    /\ In d deps /\ In (dep_destination d) direction
    /\ Datetime.strptime (dep_time d) = Ok t
    /\ forall d' t',
         In d' deps -> In (dep_destination d') direction ->
         Datetime.strptime (dep_time d') = Ok t' ->
         (instant t - instant (now env)) / 1000000
         <= (instant t' - instant (now env)) / 1000000.
Proof.
  intros Hd Hp Hex Hday.
  destruct (select_spec env start direction deps Hd Hp Hex)
    as (cs & d & t & Hcs & Hc & Hin & Hm & Ht & Hmin).
  exists d, t. rewrite Hcs. cbn [rbind]. repeat split; auto.
  intros d' t' Hin' Hm' Ht'.
  specialize (Hmin d' t' Hin' Hm' Ht').
  rewrite !delta_of_eq in Hmin.
  rewrite (sub_seconds_same_day t (now env)) in Hmin
    by (now apply Hday with d).
  rewrite (sub_seconds_same_day t' (now env)) in Hmin
    by (now apply Hday with d').
  now apply lex_le_seconds.
Qed.

Lemma scenario_within_a_day :
  forall d t,
    In d scenario_departures ->
    In (dep_destination d) ["Leipzig"; "Schkeuditz"] ->
    Datetime.strptime (dep_time d) = Ok t ->
    0 <= instant t - instant (now scenario_env) < 86400 * 1000000.
Proof.
  intros d t [<- | [<- | []]] _ Ht; cbn in Ht; injection Ht as <-;
    vm_compute; (split; [discriminate | reflexivity]).
Qed.

Lemma selector_returns_soonest_within_a_day_witness :
  exists d t,
    (let! cs := get_connections scenario_env "Hauptbahnhof"
                  ["Leipzig"; "Schkeuditz"] in
     get_next_connection cs) = Ok (conn_of (now scenario_env) d t)
    /\ In d scenario_departures
    /\ In (dep_destination d) ["Leipzig"; "Schkeuditz"]
    /\ Datetime.strptime (dep_time d) = Ok t
    /\ forall d' t',
         In d' scenario_departures ->
         In (dep_destination d') ["Leipzig"; "Schkeuditz"] ->
         Datetime.strptime (dep_time d') = Ok t' ->
         (instant t - instant (now scenario_env)) / 1000000
         <= (instant t' - instant (now scenario_env)) / 1000000.
Proof.
  apply (selector_returns_soonest_within_a_day scenario_env "Hauptbahnhof"
           ["Leipzig"; "Schkeuditz"] scenario_departures).
  - reflexivity.
  - exact scenario_parses.
  - apply Exists_cons_hd. right. left. reflexivity.
  - exact scenario_within_a_day.
Defined.

(** ** Which stop a handler asks for *)

(** X8. [home] asks the service for the workplace stop only, and [work]
    for the home stop only: two environments with the same clock that
    answer alike for that one stop give the same outcome, whatever they
    answer for any other stop. *)
Theorem handlers_query_one_stop
    (env1 env2 : environment) (s : self) (u : update) (w : world) :
  now env1 = now env2 ->
  (getDeparturesForStop env1 (workplace s)
   = getDeparturesForStop env2 (workplace s) ->
   home env1 s u w = home env2 s u w)
  /\ (getDeparturesForStop env1 (home_address s)
      = getDeparturesForStop env2 (home_address s) ->
      work env1 s u w = work env2 s u w).
Proof.
  intros Hn.
  assert (forall stop direction,
            getDeparturesForStop env1 stop = getDeparturesForStop env2 stop ->
            reply_next env1 stop direction u w
            = reply_next env2 stop direction u w) as Hr.
  { intros stop direction Hs. unfold reply_next, get_connections.
    now rewrite Hn, Hs. }
  split; intros Hs.
  - unfold home.
    destruct (check_id_cases (home_body env1) s u w) as [[A E1] | [N E1]].
    + rewrite E1, (check_id_allowed (home_body env2) s u w A).
      now apply Hr.
    + now rewrite E1, (check_id_denied (home_body env2) s u w N).
  - unfold work.
    destruct (check_id_cases (work_body env1) s u w) as [[A E1] | [N E1]].
    + rewrite E1, (check_id_allowed (work_body env2) s u w A).
      now apply Hr.
    + now rewrite E1, (check_id_denied (work_body env2) s u w N).
Qed.

Lemma handlers_query_one_stop_witness :
  home scenario_env (scenario_bot ["Schkeuditz"]) (scenario_update 111)
       empty_world
  = home {| now := now scenario_env;
            getDeparturesForStop := fun _ => Ok scenario_departures |}
         (scenario_bot ["Schkeuditz"]) (scenario_update 111) empty_world.
Proof.
  apply (proj1 (handlers_query_one_stop scenario_env
                  {| now := now scenario_env;
                     getDeparturesForStop := fun _ => Ok scenario_departures |}
                  (scenario_bot ["Schkeuditz"]) (scenario_update 111)
                  empty_world eq_refl)).
  reflexivity.
Defined.


(** ** The allow-list of a configuration file *)

Lemma comprehension_length {A B} (f : A -> option B) (l : list A) ys :
  Py.comprehension f l = Ok ys -> length ys = length l.
Proof.
  revert ys. induction l as [|x l IH]; intros ys H; cbn in H.
  - now injection H as <-.
  - destruct (f x); [|discriminate].
    destruct (Py.comprehension f l) as [zs|]; [|discriminate].
    cbn in H. injection H as <-. cbn. now rewrite (IH zs eq_refl).
Qed.

Lemma split_length_pos (sep : ascii) (s : string) :
  (0 < length (Py.split sep s))%nat.
Proof.
  pose proof (split_nonempty sep s).
  destruct (Py.split sep s); [contradiction | cbn; lia].
Qed.

Lemma main_bot_allowed (c : config) (u : update) :
  Config.ids c <> [] ->
  (allowed (main_bot c) u <-> In (chat_id (upd_message u)) (Config.ids c)).
Proof.
  intros Hne. unfold allowed, main_bot, HavagBot.init. cbn. split.
  - intros (l & Hl & _ & Hin). now injection Hl as <-.
  - intros Hin. exists (Config.ids c). auto.
Qed.

Lemma read_config_lists_nonempty rt filename cfg :
  read_config rt filename = Ok cfg ->
  Config.ids cfg <> []
  /\ Config.direction_home cfg <> []
  /\ Config.direction_workplace cfg <> [].
Proof.
  intros H.
  destruct (read_config_inv rt filename cfg H)
    as (cp & v & dw & dh & _ & _ & _ & _ & _ & Hl & _ & _ & _ & _ & Ew & Eh).
  rewrite Ew, Eh. split; [|split; apply split_nonempty].
  apply comprehension_length in Hl.
  pose proof (split_length_pos "," v).
  destruct (Config.ids cfg); [cbn in Hl; lia | discriminate].
Qed.

(** X9. A configuration that loads never has an empty list: the
    allow-list and both destination lists have at least one entry, and an
    empty [allowed_ids] value is rejected with [ValueError].  So the bot
    that [main] builds never has an empty allow-list, and its gate lets
    a request pass exactly when the chat id is one of the loaded ids. *)
Theorem loaded_lists_are_never_empty (rt : runtime) (filename : string) :
  (forall cfg,
     read_config rt filename = Ok cfg ->
     Config.ids cfg <> []
     /\ Config.direction_home cfg <> []
     /\ Config.direction_workplace cfg <> []
     /\ forall u,
          allowed (main_bot cfg) u
          <-> In (chat_id (upd_message u)) (Config.ids cfg))
  /\ (forall cp tk,
        cp_read rt filename = Ok cp ->
        cp_has_section cp "AUTHENTICATION" = true ->
        cp_has_option cp "AUTHENTICATION" "token" = true ->
        cp_get cp "AUTHENTICATION" "token" = Ok tk ->
        cp_has_option cp "AUTHENTICATION" "allowed_ids" = true ->
        cp_get cp "AUTHENTICATION" "allowed_ids" = Ok "" ->
        read_config rt filename = Raise ValueError).
Proof.
  split.
  - intros cfg Hcfg.
    destruct (read_config_lists_nonempty rt filename cfg Hcfg)
      as (Hi & Hh & Hw).
    repeat split; auto; now apply main_bot_allowed.
  - intros cp tk Hr HA Ht Hgt Hi Hgi.
    rewrite read_config_unfold, Hr. cbn [rbind]. rewrite HA.
    unfold option_getitem. rewrite Ht, Hgt. cbn [rbind].
    rewrite Hi, Hgi. reflexivity.
Qed.

Lemma loaded_lists_are_never_empty_witness :
  (Config.ids known_values <> []
   /\ Config.direction_home known_values <> []
   /\ Config.direction_workplace known_values <> []
   /\ forall u,
        allowed (main_bot known_values) u
        <-> In (chat_id (upd_message u)) (Config.ids known_values))
  /\ read_config (runtime_of (config_with_ids "")) "havag.ini"
     = Raise ValueError.
Proof.
  split.
  - apply (proj1 (loaded_lists_are_never_empty
                    (runtime_of (file_of known_values)) "havag.ini")
             known_values).
    reflexivity.
  - apply (proj2 (loaded_lists_are_never_empty
                    (runtime_of (config_with_ids "")) "havag.ini")
             (parser_of (config_with_ids "")) "123:abc");
      reflexivity.
Defined.

(** ** Blanks around the ids *)

Lemma lstrip_blank_prefix (p r : string) :
  all_blank p = true ->
  Py.lstrip_with Py.isblank (p +:+ r) = Py.lstrip_with Py.isblank r.
Proof.
  induction p as [|c p IH]; intros H; [reflexivity|].
  cbn in H. apply andb_true_iff in H. destruct H as [Hc Hp].
  change (Py.lstrip_with Py.isblank (String c (p +:+ r))
          = Py.lstrip_with Py.isblank r).
  cbn [Py.lstrip_with]. rewrite Hc. now apply IH.
Qed.

Lemma lstrip_all_blank (q : string) :
  all_blank q = true -> Py.lstrip_with Py.isblank q = EmptyString.
Proof.
  induction q as [|c q IH]; intros H; [reflexivity|].
  cbn in H. apply andb_true_iff in H. destruct H as [Hc Hq].
  cbn [Py.lstrip_with]. rewrite Hc. now apply IH.
Qed.

Lemma rstrip_all_blank (q : string) :
  all_blank q = true -> Py.rstrip_with Py.isblank q = EmptyString.
Proof.
  induction q as [|c q IH]; intros H; [reflexivity|].
  cbn in H. apply andb_true_iff in H. destruct H as [Hc Hq].
  cbn [Py.rstrip_with]. rewrite (IH Hq), Hc. reflexivity.
Qed.

Lemma rstrip_blank_suffix (s q : string) :
  free_of Py.isblank s = true -> all_blank q = true ->
  Py.rstrip_with Py.isblank (s +:+ q) = s.
Proof.
  intros Hs Hq. induction s as [|c r IH].
  - now apply rstrip_all_blank.
  - cbn in Hs. apply andb_true_iff in Hs. destruct Hs as [Hc Hr].
    change (Py.rstrip_with Py.isblank (String c (r +:+ q)) = String c r).
    cbn [Py.rstrip_with]. rewrite (IH Hr).
    destruct r; [|reflexivity].
    destruct (Py.isblank c); [discriminate | reflexivity].
Qed.

Lemma strip_padded (p s q : string) :
  all_blank p = true -> all_blank q = true ->
  free_of Py.isblank s = true ->
  Py.strip_with Py.isblank (p +:+ s +:+ q) = s.
Proof.
  intros Hp Hq Hs. unfold Py.strip_with.
  rewrite lstrip_blank_prefix by exact Hp.
  destruct s as [|c r].
  - change (EmptyString +:+ q) with q.
    now rewrite lstrip_all_blank.
  - assert (Py.lstrip_with Py.isblank (String c r +:+ q) = String c r +:+ q)
      as ->.
    { change (Py.lstrip_with Py.isblank (String c (r +:+ q))
              = String c (r +:+ q)).
      cbn [Py.lstrip_with]. cbn in Hs.
      destruct (Py.isblank c); [discriminate | reflexivity]. }
    now apply rstrip_blank_suffix.
Qed.

Lemma str_free_of_blank (n : Z) : free_of Py.isblank (Py.str n) = true.
Proof.
  unfold Py.str.
  destruct (Z.to_int n) as [u|u]; cbn [NilZero.string_of_int];
    destruct (nilzero_digits u) as (Hd & _).
  - now apply all_digits_free.
  - cbn. now apply all_digits_free.
Qed.

Lemma int_padded (p q : string) (n : Z) :
  all_blank p = true -> all_blank q = true ->
  Py.int (p +:+ Py.str n +:+ q) = Some n.
Proof.
  intros Hp Hq. rewrite <- (int_str n). unfold Py.int. cbv zeta.
  rewrite (strip_padded p (Py.str n) q Hp Hq (str_free_of_blank n)).
  rewrite (strip_free Py.isblank (Py.str n) (str_free_of_blank n)).
  reflexivity.
Qed.

Lemma comprehension_padded limit (es : list string) (l : list Z) :
  List.Forall2
    (fun e n => Py.exceeds_limit limit e = false
                /\ exists p q, all_blank p = true /\ all_blank q = true
                               /\ e = p +:+ Py.str n +:+ q) es l ->
  Py.comprehension (Py.int_limited limit) es = Ok l.
Proof.
  induction 1 as [|e n es ns (Hlim & p & q & Hp & Hq & He) _ IH];
    [reflexivity|].
  cbn. unfold Py.int_limited at 1. rewrite Hlim. subst e.
  rewrite (int_padded p q n Hp Hq), IH. reflexivity.
Qed.

(** X10. Blanks around the entries of [allowed_ids] do no harm, unlike
    those of the destination lists: when each entry between the commas
    is the decimal form of an integer, not longer than the interpreter
    converts, with any blanks before and after it, a configuration that
    loads has exactly these integers, in order, as its ids; and the
    loader does load when the sections and the other five options are
    there and can be retrieved. *)
Theorem allowed_ids_tolerate_blanks
    (rt : runtime) (filename : string) (cp : ConfigParser)
    (v : string) (l : list Z) :
  cp_read rt filename = Ok cp ->
  cp_has_option cp "AUTHENTICATION" "allowed_ids" = true ->
  cp_get cp "AUTHENTICATION" "allowed_ids" = Ok v ->
  List.Forall2
    (fun e n => Py.exceeds_limit (int_max_str_digits rt) e = false
                /\ exists p q, all_blank p = true /\ all_blank q = true
                               /\ e = p +:+ Py.str n +:+ q)
    (Py.split "," v) l ->
  (forall cfg, read_config rt filename = Ok cfg -> Config.ids cfg = l)
  /\ (other_options_answered cp ->
      exists cfg, read_config rt filename = Ok cfg /\ Config.ids cfg = l).
Proof.
  intros Hr Hi Hg HF.
  pose proof (comprehension_padded _ _ _ HF) as Hl.
  split.
  - intros cfg H.
    destruct (read_config_inv rt filename cfg H)
      as (cp' & v' & dw & dh & Hr' & _ & _ & _ & Hi' & Hl' & _).
    rewrite Hr in Hr'. injection Hr' as <-.
    apply option_getitem_ok in Hi'. destruct Hi' as [_ Hg'].
    rewrite Hg in Hg'. injection Hg' as <-. congruence.
  - intros (HA & HL & [Ht Gt] & [Hw Gw] & [Hdw Gdw] & [Hh Gh] & [Hdh Gdh]).
    rewrite read_config_unfold, Hr. cbn [rbind]. rewrite HA, HL.
    unfold option_getitem. rewrite Ht, Hi, Hw, Hdw, Hh, Hdh, Hg.
    destruct (cp_get cp "AUTHENTICATION" "token"); [|discriminate].
    destruct (cp_get cp "LOCATIONS" "workplace"); [|discriminate].
    destruct (cp_get cp "LOCATIONS" "direction_workplace"); [|discriminate].
    destruct (cp_get cp "LOCATIONS" "home"); [|discriminate].
    destruct (cp_get cp "LOCATIONS" "direction_home"); [|discriminate].
    cbn [rbind]. rewrite Hl. cbn [rbind]. eexists. split; reflexivity.
Qed.

Lemma allowed_ids_tolerate_blanks_witness :
  (forall cfg,
     read_config (runtime_of (config_with_ids "111, -5 ,  0")) "havag.ini"
     = Ok cfg ->
     Config.ids cfg = [111; -5; 0])
  /\ exists cfg,
       read_config (runtime_of (config_with_ids "111, -5 ,  0")) "havag.ini"
       = Ok cfg
       /\ Config.ids cfg = [111; -5; 0].
Proof.
  destruct (allowed_ids_tolerate_blanks
              (runtime_of (config_with_ids "111, -5 ,  0")) "havag.ini"
              (parser_of (config_with_ids "111, -5 ,  0"))
              "111, -5 ,  0" [111; -5; 0]) as [H1 H2].
  - reflexivity.
  - reflexivity.
  - reflexivity.
  - constructor;
      [split; [reflexivity | exists "", ""; repeat split; reflexivity]|].
    constructor;
      [split; [reflexivity | exists " ", " "; repeat split; reflexivity]|].
    constructor;
      [split; [reflexivity | exists "  ", ""; repeat split; reflexivity]|].
    constructor.
  - split; [exact H1|]. apply H2. repeat split.
Defined.

(** ** From the configuration file to the replies *)



(** ** What the code does not look at *)

Lemma loop_ignores_rest n direction deps deps' :
  List.Forall2 same_leading_fields deps deps' ->
  forall acc,
    get_connections_loop n direction deps acc
    = get_connections_loop n direction deps' acc.
Proof.
  induction 1 as [|d d' deps deps' (Ht & Hd & Hti) _ IH]; intros acc;
    [reflexivity|].
  destruct d as [tr de ti re], d' as [tr' de' ti' re']. cbn in Ht, Hd, Hti.
  subst tr' de' ti'. cbn [get_connections_loop].
  destruct (Datetime.strptime ti); cbn [rbind]; [|reflexivity].
  destruct (in_direction de direction); apply IH.
Qed.

(** X12. Only the first three fields of a record of the service count:
    answers that agree on line, destination and scheduled time, record
    by record, give the same connections or the same failure, whatever
    their further fields hold. *)
Theorem get_connections_ignores_further_fields
    (env env' : environment) (start : string) (direction : list string)
    (deps deps' : list departure) :
  now env = now env' ->
  getDeparturesForStop env start = Ok deps ->
  getDeparturesForStop env' start = Ok deps' ->
  List.Forall2 same_leading_fields deps deps' ->
  get_connections env start direction = get_connections env' start direction.
Proof.
  intros Hn Hd Hd' HF. unfold get_connections.
  rewrite Hd, Hd', Hn. cbn [rbind]. now apply loop_ignores_rest.
Qed.

Lemma get_connections_ignores_further_fields_witness :
  get_connections scenario_env "Hauptbahnhof" ["Schkeuditz"]
  = get_connections
      {| now := now scenario_env;
         getDeparturesForStop := fun _ =>
           Ok [Departure "3" "Schkeuditz" "2024.01.01.10:05:00"
                 ["Gleis 2"; "+1"];
               Departure "7" "Leipzig" "2024.01.01.10:02:00" ["x"]] |}
      "Hauptbahnhof" ["Schkeuditz"].
Proof.
  apply (get_connections_ignores_further_fields scenario_env
           {| now := now scenario_env;
              getDeparturesForStop := fun _ =>
                Ok [Departure "3" "Schkeuditz" "2024.01.01.10:05:00"
                      ["Gleis 2"; "+1"];
                    Departure "7" "Leipzig" "2024.01.01.10:02:00" ["x"]] |}
           "Hauptbahnhof" ["Schkeuditz"] scenario_departures
           [Departure "3" "Schkeuditz" "2024.01.01.10:05:00"
              ["Gleis 2"; "+1"];
            Departure "7" "Leipzig" "2024.01.01.10:02:00" ["x"]]).
  - reflexivity.
  - reflexivity.
  - reflexivity.
  - repeat constructor.
Defined.

(** X13. The loader looks at the sections AUTHENTICATION and LOCATIONS
    and at the six options it names, at nothing else of the parser: two
    parsers that answer alike about these, under the same digit limit,
    give the same configuration or the same exception, whatever further
    sections and options they hold. *)
Theorem read_config_reads_six_options
    (rt1 rt2 : runtime) (filename1 filename2 : string)
    (cp1 cp2 : ConfigParser) :
  int_max_str_digits rt1 = int_max_str_digits rt2 ->
  cp_read rt1 filename1 = Ok cp1 ->
  cp_read rt2 filename2 = Ok cp2 ->
  same_answers cp1 cp2 ->
  read_config rt1 filename1 = read_config rt2 filename2.
Proof.
  intros Hlim H1 H2 [Hsec Hopt].
  rewrite !read_config_unfold, H1, H2, Hlim. cbn [rbind].
  rewrite (Hsec "AUTHENTICATION") by auto.
  rewrite (Hsec "LOCATIONS") by auto.
  assert (forall section key,
            In (section, key) read_options ->
            option_getitem cp1 section key = option_getitem cp2 section key)
    as Hg.
  { intros section key Hin. unfold option_getitem.
    destruct (Hopt section key Hin) as [-> ->]. reflexivity. }
  rewrite (Hg "AUTHENTICATION" "token") by (cbn; tauto).
  rewrite (Hg "AUTHENTICATION" "allowed_ids") by (cbn; tauto).
  rewrite (Hg "LOCATIONS" "workplace") by (cbn; tauto).
  rewrite (Hg "LOCATIONS" "direction_workplace") by (cbn; tauto).
  rewrite (Hg "LOCATIONS" "home") by (cbn; tauto).
  rewrite (Hg "LOCATIONS" "direction_home") by (cbn; tauto).
  reflexivity.
Qed.

Lemma more_entries_same_answers :
  same_answers (parser_of (config_with_ids "111"))
               (parser_of config_with_more).
Proof.
  split.
  - intros section [-> | ->]; reflexivity.
  - intros section key Hin. cbn in Hin.
    repeat (destruct Hin as [Hin | Hin];
            [injection Hin as <- <-; split; reflexivity|]).
    destruct Hin.
Qed.

Lemma read_config_reads_six_options_witness :
  read_config (runtime_of (config_with_ids "111")) "havag.ini"
  = read_config (runtime_of config_with_more) "other.ini".
Proof.
  apply (read_config_reads_six_options
           (runtime_of (config_with_ids "111")) (runtime_of config_with_more)
           "havag.ini" "other.ini"
           (parser_of (config_with_ids "111")) (parser_of config_with_more)).
  - reflexivity.
  - reflexivity.
  - reflexivity.
  - exact more_entries_same_answers.
Defined.
